(** * hotel-splitter: the cost calculator of [src/calculations.ts]

    A shallow embedding of the three exported functions [calculateNights],
    [getNightDates] and [calculateCosts], with the JavaScript built-ins they
    call, and the properties of the calculator stated over that embedding.

    - Prices and costs are binary64 numbers, with the rounding of every
      division and addition.
    - A night count is an integer; where the code divides by it, it is the
      binary64 number of that value.
    - Dates are ECMAScript time values.  The time zone of the host and its
      reading of strings outside the date-time format are parameters.
    - [calculateCosts] is given twice: on values (lists and records), and on
      a heap of objects, where the arrays it allocates and pushes on are
      explicit; the two are shown to agree. *)

From Stdlib Require Import ZArith Lia Bool String Ascii SpecFloat.
From stdpp Require Import base option list.

Local Open Scope Z_scope.

(** ** JavaScript numbers

    A JavaScript [number] is an IEEE-754 binary64 value.  [spec_float] is the
    Standard Library's specification of such values (no NaN payload, which
    JavaScript cannot observe either); the operations round to nearest, ties
    to even, as ECMAScript prescribes. *)
Module Num.

Definition prec : Z := 53.
Definition emax : Z := 1024.

Definition number : Type := spec_float.

Definition zero : number := S754_zero false.
Definition neg_zero : number := S754_zero true.
Definition NaN : number := S754_nan.

(** The number closest to an integer (exact below 2^53). *)
Definition of_Z (z : Z) : number := binary_normalize prec emax z 0 false.
Definition of_nat (n : nat) : number := of_Z (Z.of_nat n).

Definition add : number -> number -> number := SFadd prec emax.
Definition div : number -> number -> number := SFdiv prec emax.

(** [x === y] on numbers: [NaN] equals nothing, the two zeros are equal. *)
Definition strict_eq (x y : number) : bool := SFeqb x y.

(** Well-formed binary64 values: the mantissa of a finite value is in
    canonical position and the exponent in range. *)
Definition valid (x : number) : bool := valid_binary prec emax x.

(** Numbers whose exponent, when finite, is not below the smallest one of
    the format.  Every result of a division has this form, and so has every
    sum of two numbers that have it. *)
Definition wf (x : number) : Prop :=
  match x with
  | S754_finite _ _ e => emin prec emax <= e
  | _ => True
  end.

(** The mantissa and exponent a rounding step may start from. *)
Definition roundable (m e : Z) : Prop :=
  0 <= m /\ e <= fexp prec emax (Zdigits2 m + e).

(** A mantissa in canonical position, or the zero mantissa. *)
Definition settled (m e : Z) : Prop :=
  (0 < m /\ fexp prec emax (Zdigits2 m + e) = e)
  \/ (m = 0 /\ e = emin prec emax).

(** The running sum [let s = 0; for (x of xs) s += x]. *)
Definition sum (xs : list number) : number := foldl add zero xs.

End Num.

Abbreviation number := Num.number.

(** ** Data model: [Person] and [PersonCost] *)

Record Person : Type := mkPerson {
  id : string;
  name : string;
  nights : list bool
}.

Record PersonCost : Type := mkPersonCost {
  personId : string;
  perNight : list number;
  total : number
}.

(** The condition [person.nights[i]]: an index past the end of the array reads
    [undefined], which is falsy. *)
Definition stayed (p : Person) (i : nat) : bool :=
  match nights p !! i with
  | Some b => b
  | None => false
  end.

(** ** [calculateCosts] *)

(** [people.filter((p) => p.nights[i]).length] *)
Definition peopleThisNight (people : list Person) (i : nat) : nat :=
  length (filter (fun p => stayed p i) people).

(** One turn of the inner loop, on the pair of the local [perNight] and
    [total]. *)
Definition nightStep (people : list Person) (pricePerNight : number)
    (person : Person) (acc : list number * number) (i : nat)
    : list number * number :=
  let '(perNight, total) := acc in
  if stayed person i then
    let n := peopleThisNight people i in
    let costThisNight :=
      if (0 <? n)%nat then Num.div pricePerNight (Num.of_nat n) else Num.zero in
    (perNight ++ [costThisNight], Num.add total costThisNight)
  else
    (perNight ++ [Num.zero], total).

(** The inner loop [for (let i = 0; i < nights; i++)]: no turn when [nights]
    is negative. *)
Definition nightLoop (people : list Person) (pricePerNight : number)
    (person : Person) (nights : Z) : list number * number :=
  foldl (nightStep people pricePerNight person) ([], Num.zero)
        (seq 0 (Z.to_nat nights)).

(** The body of [for (const person of people)]. *)
Definition personCost (people : list Person) (pricePerNight : number)
    (nights : Z) (person : Person) : PersonCost :=
  let '(perNight, total) := nightLoop people pricePerNight person nights in
  {| personId := id person; perNight := perNight; total := total |}.

(** [nights] is the night count, an integer; [nights === 0] and [i < nights]
    are on that integer, and [totalPrice / nights] divides by the number of
    the same value. *)
Definition calculateCosts (people : list Person) (totalPrice : number)
    (nights : Z) : list PersonCost :=
  if (nights =? 0) || Num.strict_eq totalPrice Num.zero
     || (length people =? 0)%nat
  then []
  else
    let pricePerNight := Num.div totalPrice (Num.of_Z nights) in
    foldl (fun costs person =>
             costs ++ [personCost people pricePerNight nights person])
          [] people.

(** The entries at index [i] of the [perNight] arrays of the records: what
    each person is charged for night [i]. *)
Definition nightColumn (costs : list PersonCost) (i : nat) : list number :=
  omap (fun c => perNight c !! i) costs.

(** ** Closed forms of the loops

    The cost of night [i] for [person], and the value the running [total]
    takes: both read off [nightStep]. *)

(** What a person present at night [i] is charged. *)
Definition share (people : list Person) (pricePerNight : number) (i : nat)
    : number :=
  if (0 <? peopleThisNight people i)%nat
  then Num.div pricePerNight (Num.of_nat (peopleThisNight people i))
  else Num.zero.

Definition nightCost (people : list Person) (pricePerNight : number)
    (person : Person) (i : nat) : number :=
  if stayed person i then share people pricePerNight i else Num.zero.

(** [total += costThisNight], on the nights the person stayed. *)
Definition addNight (people : list Person) (pricePerNight : number)
    (person : Person) (t : number) (i : nat) : number :=
  if stayed person i then Num.add t (share people pricePerNight i) else t.


(** ** ECMAScript time values

    The algorithms of the "Date Objects" clause of ECMAScript, on integer
    time values (milliseconds since 1970-01-01T00:00:00Z).  A time value of
    a [Date] is an integer of magnitude at most 8.64e15, which binary64
    represents exactly, so the arithmetic is written on [Z]. *)
Module ES.

Definition msPerSecond : Z := 1000.
Definition msPerMinute : Z := 60000.
Definition msPerHour : Z := 3600000.
Definition msPerDay : Z := 86400000.

Definition Day (t : Z) : Z := t / msPerDay.
Definition TimeWithinDay (t : Z) : Z := t mod msPerDay.

Definition isLeapYear (y : Z) : bool :=
  ((y mod 4 =? 0) && negb (y mod 100 =? 0)) || (y mod 400 =? 0).

Definition DaysInYear (y : Z) : Z := if isLeapYear y then 366 else 365.

Definition DayFromYear (y : Z) : Z :=
  365 * (y - 1970) + (y - 1969) / 4 - (y - 1901) / 100 + (y - 1601) / 400.

Definition TimeFromYear (y : Z) : Z := msPerDay * DayFromYear y.

(** The largest year [y] with [DayFromYear y <= d]: an estimate from the mean
    length of a year, which is off by one at most, and its correction. *)
Definition YearFromDay (d : Z) : Z :=
  let y := 1970 + d * 400 / 146097 in
  if d <? DayFromYear y then y - 1
  else if DayFromYear (y + 1) <=? d then y + 1
  else y.

Definition YearFromTime (t : Z) : Z := YearFromDay (Day t).

Definition InLeapYear (t : Z) : Z :=
  if isLeapYear (YearFromTime t) then 1 else 0.

Definition DayWithinYear (t : Z) : Z := Day t - DayFromYear (YearFromTime t).

(** The day within the year on which month [m] (0 for January) starts. *)
Definition monthStart (m leap : Z) : Z :=
  match m with
  | 0 => 0
  | 1 => 31
  | 2 => 59 + leap
  | 3 => 90 + leap
  | 4 => 120 + leap
  | 5 => 151 + leap
  | 6 => 181 + leap
  | 7 => 212 + leap
  | 8 => 243 + leap
  | 9 => 273 + leap
  | 10 => 304 + leap
  | _ => 334 + leap
  end.

Definition monthOfDay (dwy leap : Z) : Z :=
  if dwy <? 31 then 0
  else if dwy <? 59 + leap then 1
  else if dwy <? 90 + leap then 2
  else if dwy <? 120 + leap then 3
  else if dwy <? 151 + leap then 4
  else if dwy <? 181 + leap then 5
  else if dwy <? 212 + leap then 6
  else if dwy <? 243 + leap then 7
  else if dwy <? 273 + leap then 8
  else if dwy <? 304 + leap then 9
  else if dwy <? 334 + leap then 10
  else 11.

Definition MonthFromTime (t : Z) : Z :=
  monthOfDay (DayWithinYear t) (InLeapYear t).

Definition DateFromTime (t : Z) : Z :=
  DayWithinYear t - monthStart (MonthFromTime t) (InLeapYear t) + 1.

Definition HourFromTime (t : Z) : Z := (t / msPerHour) mod 24.
Definition MinFromTime (t : Z) : Z := (t / msPerMinute) mod 60.
Definition SecFromTime (t : Z) : Z := (t / msPerSecond) mod 60.
Definition msFromTime (t : Z) : Z := t mod msPerSecond.

Definition MakeTime (hour min sec ms : Z) : Z :=
  hour * msPerHour + min * msPerMinute + sec * msPerSecond + ms.

(** [MakeDay]: the day number of the first of the month, plus [date - 1]. *)
Definition MakeDay (year month date : Z) : Z :=
  let ym := year + month / 12 in
  let mn := month mod 12 in
  DayFromYear ym + monthStart mn (if isLeapYear ym then 1 else 0) + date - 1.

Definition MakeDate (day time : Z) : Z := day * msPerDay + time.

(** [TimeClip]: [None] stands for [NaN]. *)
Definition TimeClip (t : Z) : option Z :=
  if Z.abs t <=? 8640000000000000 then Some t else None.

Definition DaysInMonth (y m : Z) : Z :=
  match m with
  | 2 => if isLeapYear y then 29 else 28
  | 4 | 6 | 9 | 11 => 30
  | _ => 31
  end.

(** A date of the calendar, with a year of four digits. *)
Definition validDate (y m d : Z) : Prop :=
  0 <= y <= 9999 /\ 1 <= m <= 12 /\ 1 <= d <= DaysInMonth y m.

(** The number of the day [y]-[m]-[d], counted from 1970-01-01. *)
Definition dayNumber (y m d : Z) : Z := MakeDay y (m - 1) d.

(** The order of the calendar on year, month and day. *)
Definition dateLt (y1 m1 d1 y2 m2 d2 : Z) : Prop :=
  y1 < y2 \/ (y1 = y2 /\ (m1 < m2 \/ (m1 = m2 /\ d1 < d2))).

(** *** Text of dates *)

Definition digitChar (d : Z) : ascii := ascii_of_nat (48 + Z.to_nat d).

Definition digitValue (c : ascii) : option Z :=
  let n := Z.of_nat (nat_of_ascii c) in
  if (48 <=? n) && (n <=? 57) then Some (n - 48) else None.

(** The [w] low decimal digits of [n], most significant first. *)
Fixpoint padDigits (w : nat) (n : Z) : string :=
  match w with
  | O => EmptyString
  | S w' => String (digitChar (n / 10 ^ Z.of_nat w' mod 10)) (padDigits w' n)
  end.

(** The value of a string of decimal digits. *)
Fixpoint digitsValue (acc : Z) (s : string) : option Z :=
  match s with
  | EmptyString => Some acc
  | String c s' =>
      match digitValue c with
      | Some d => digitsValue (10 * acc + d) s'
      | None => None
      end
  end.

(** The year of the date-time format: four digits from 0 to 9999, else a
    sign and six digits. *)
Definition isoYear (y : Z) : string :=
  if (0 <=? y) && (y <=? 9999) then padDigits 4 y
  else String (if y <? 0 then "-"%char else "+"%char) (padDigits 6 (Z.abs y)).

(** [YYYY-MM-DD] *)
Definition isoDate (y m d : Z) : string :=
  (isoYear y ++ "-" ++ padDigits 2 m ++ "-" ++ padDigits 2 d)%string.

(** The date of day number [n], as [YYYY-MM-DD]. *)
Definition isoDateOfDay (n : Z) : string :=
  let t := n * msPerDay in
  isoDate (YearFromTime t) (MonthFromTime t + 1) (DateFromTime t).

Definition charAt (i : nat) (s : string) : option ascii := String.get i s.

Definition isChar (c : ascii) (o : option ascii) : bool :=
  match o with
  | Some c' => Ascii.eqb c' c
  | None => false
  end.

(** The fields of a string of the form [YYYY-MM-DDTHH:mm:ss] that names a
    date of the calendar and a time of the day. *)
Definition isoDateTime (s : string) : option (Z * Z * Z * (Z * Z * Z)) :=
  if (String.length s =? 19)%nat
     && isChar "-" (charAt 4 s) && isChar "-" (charAt 7 s)
     && isChar "T" (charAt 10 s)
     && isChar ":" (charAt 13 s) && isChar ":" (charAt 16 s)
  then
    match digitsValue 0 (substring 0 4 s), digitsValue 0 (substring 5 2 s),
          digitsValue 0 (substring 8 2 s), digitsValue 0 (substring 11 2 s),
          digitsValue 0 (substring 14 2 s), digitsValue 0 (substring 17 2 s)
    with
    | Some y, Some mo, Some d, Some h, Some mi, Some sec =>
        if (1 <=? mo) && (mo <=? 12) && (1 <=? d) && (d <=? DaysInMonth y mo)
           && (h <=? 23) && (mi <=? 59) && (sec <=? 59)
        then Some (y, mo, d, (h, mi, sec))
        else None
    | _, _, _, _, _, _ => None
    end
  else None.

(** [s.split(sep)[0]]: what comes before the first [sep]. *)
Fixpoint beforeFirst (sep : ascii) (s : string) : string :=
  match s with
  | EmptyString => EmptyString
  | String c s' =>
      if Ascii.eqb c sep then EmptyString else String c (beforeFirst sep s')
  end.

(** *** The host: its time zone and its parser of other date formats *)

Section Host.

(** [LocalTZA t isUTC]: the offset of local time from UTC, in milliseconds,
    at the time value [t], read as a UTC time when [isUTC] and as a local
    time otherwise. *)
Variable LocalTZA : Z -> bool -> Z.

(** What [Date.parse] makes of a string that is not of the form above: another
    form of the date-time format, or whatever the implementation accepts;
    [None] is [NaN]. *)
Variable hostParse : string -> option Z.

Definition LocalTime (t : Z) : Z := t + LocalTZA t true.
Definition UTC (t : Z) : Z := t - LocalTZA t false.

(** [Date.parse]: a date-time without offset is a local time. *)
Definition parse (s : string) : option Z :=
  match isoDateTime s with
  | Some (y, mo, d, (h, mi, sec)) =>
      TimeClip (UTC (MakeDate (MakeDay y (mo - 1) d) (MakeTime h mi sec 0)))
  | None => hostParse s
  end.

(** [date.getDate()] on a valid date. *)
Definition getDate (t : Z) : Z := DateFromTime (LocalTime t).

(** [date.setDate(dt)] on a valid date: the new time value. *)
Definition setDate (t dt : Z) : option Z :=
  let t' := LocalTime t in
  let newDate :=
    MakeDate (MakeDay (YearFromTime t') (MonthFromTime t') dt)
             (TimeWithinDay t') in
  TimeClip (UTC newDate).

End Host.

(** [date.toISOString()] on a valid date: the UTC fields of the time value. *)
Definition toISOString (t : Z) : string :=
  (isoDate (YearFromTime t) (MonthFromTime t + 1) (DateFromTime t)
   ++ "T" ++ padDigits 2 (HourFromTime t) ++ ":" ++ padDigits 2 (MinFromTime t)
   ++ ":" ++ padDigits 2 (SecFromTime t) ++ "." ++ padDigits 3 (msFromTime t)
   ++ "Z")%string.

End ES.

(** ** [calculateNights] and [getNightDates] *)

(** How a call ends: with a value, or with the [RangeError] that
    [toISOString] throws on an invalid date. *)
Inductive completion (A : Type) : Type :=
  | Normal (a : A)
  | RangeError.
Arguments Normal {A} a.
Arguments RangeError {A}.

#[global] Instance completion_ret : MRet completion := fun A a => Normal a.

#[global] Instance completion_bind : MBind completion :=
  fun A B k c =>
    match c with
    | Normal a => k a
    | RangeError => RangeError
    end.

(** [!s] on a string. *)
Definition isEmpty (s : string) : bool :=
  match s with
  | EmptyString => true
  | String _ _ => false
  end.

Section Calculator.

Variable LocalTZA : Z -> bool -> Z.
Variable hostParse : string -> option Z.

(** [new Date(s)]: the time value, [None] for an invalid date. *)
Definition newDate (s : string) : option Z := ES.parse LocalTZA hostParse s.

(** [a <= b] on two dates: false when either is invalid. *)
Definition dateLe (a b : option Z) : bool :=
  match a, b with
  | Some x, Some y => x <=? y
  | _, _ => false
  end.

(** The result is a number: [None] stands for [NaN].  The time values are
    integers, and [diffTime] and [diffDays] are computed on the integers:
    this is what the binary64 subtraction and division followed by
    [Math.floor] give for the dates the function is written for, with
    four-digit years, where the difference is below [2 ^ 53] and the
    quotient is far from the next integer. *)
Definition calculateNights (checkIn checkOut : string) : option Z :=
  if isEmpty checkIn || isEmpty checkOut then Some 0
  else
    let checkInDate := newDate (checkIn ++ "T00:00:00")%string in
    let checkOutDate := newDate (checkOut ++ "T00:00:00")%string in
    if dateLe checkOutDate checkInDate then Some 0
    else
      match checkOutDate, checkInDate with
      | Some tOut, Some tIn =>
          let diffTime := tOut - tIn in
          let diffDays := diffTime / (1000 * 60 * 60 * 24) in
          Some diffDays
      | _, _ => None
      end.

(** The body of the loop of [getNightDates]: the label of night [i]. *)
Definition nightLabel (checkInDate : option Z) (i : nat)
    : completion string :=
  match checkInDate with
  | None => RangeError
  | Some t =>
      let nightDate := t in
      match ES.setDate LocalTZA nightDate (ES.getDate LocalTZA t + Z.of_nat i)
      with
      | None => RangeError
      | Some t' => Normal (ES.beforeFirst "T" (ES.toISOString t'))
      end
  end.

Definition getNightDates (checkIn : string) (nights : Z)
    : completion (list string) :=
  if isEmpty checkIn || (nights =? 0) then Normal []
  else
    let checkInDate := newDate (checkIn ++ "T00:00:00")%string in
    foldl (fun acc i =>
             dates ← acc;
             label ← nightLabel checkInDate i;
             mret (dates ++ [label]))
          (Normal []) (seq 0 (Z.to_nat nights)).

End Calculator.

(** ** Some hosts *)

(** A zone at a constant offset from UTC, in milliseconds. *)
Definition fixedZone (offset : Z) : Z -> bool -> Z := fun _ _ => offset.

Definition utcZone : Z -> bool -> Z := fixedZone 0.

(** Japan standard time: nine hours ahead of UTC all year. *)
Definition tokyo : Z -> bool -> Z := fixedZone (9 * ES.msPerHour).

(** US Eastern time as observed in 2024: five hours behind UTC, four between
    2024-03-10T07:00:00Z and 2024-11-03T06:00:00Z.  A local time that the
    change of March skips, or that the change of November repeats, is read
    with the offset in force before the change. *)
Definition newYork2024 (t : Z) (isUTC : bool) : Z :=
  let dstStart := ES.MakeDate (ES.MakeDay 2024 2 10) (ES.MakeTime 7 0 0 0) in
  let dstEnd := ES.MakeDate (ES.MakeDay 2024 10 3) (ES.MakeTime 6 0 0 0) in
  let est := -5 * ES.msPerHour in
  let edt := -4 * ES.msPerHour in
  if isUTC then
    if (dstStart <=? t) && (t <? dstEnd) then edt else est
  else
    if (dstStart + edt <=? t) && (t <? dstEnd + edt) then edt else est.

(** A host that accepts no other format. *)
Definition strictParse : string -> option Z := fun _ => None.

(** ** [calculateCosts] on the heap

    The same function on JavaScript objects: the roster is an array of
    references to [Person] objects, each with a reference to its array of
    flags; the function allocates the arrays and records it returns and
    pushes on them.  A heap is the list of the objects allocated so far; a
    reference is an index in it. *)
Module Heap.

Abbreviation loc := nat.

Inductive obj : Type :=
  | PersonObj (id name : string) (nights : loc)
  | PersonCostObj (personId : string) (perNight : loc) (total : number)
  | BoolArray (items : list bool)
  | NumberArray (items : list number)
  | RefArray (items : list loc).

Abbreviation heap := (list obj).

(** A computation on the heap; [None] is a [TypeError], which well-typed
    arguments never raise. *)
Definition M (A : Type) : Type := heap -> option (A * heap).

#[global] Instance M_ret : MRet M := fun A a h => Some (a, h).

#[global] Instance M_bind : MBind M :=
  fun A B k m h =>
    match m h with
    | Some (a, h') => k a h'
    | None => None
    end.

Definition fail {A : Type} : M A := fun _ => None.

Definition alloc (o : obj) : M loc := fun h => Some (length h, h ++ [o]).

Definition load (l : loc) : M obj :=
  fun h =>
    match h !! l with
    | Some o => Some (o, h)
    | None => None
    end.

Definition store (l : loc) (o : obj) : M unit :=
  fun h =>
    match h !! l with
    | Some _ => Some (tt, <[l := o]> h)
    | None => None
    end.

Fixpoint foldM {A B : Type} (f : B -> A -> M B) (b : B) (l : list A) : M B :=
  match l with
  | [] => mret b
  | a :: l' => b' ← f b a; foldM f b' l'
  end.

(** [person.nights[i]], as a condition. *)
Definition readFlag (person : loc) (i : nat) : M bool :=
  o ← load person;
  match o with
  | PersonObj _ _ ns =>
      a ← load ns;
      match a with
      | BoolArray flags =>
          mret (match flags !! i with Some b => b | None => false end)
      | _ => fail
      end
  | _ => fail
  end.

Definition loadRefs (a : loc) : M (list loc) :=
  o ← load a;
  match o with
  | RefArray refs => mret refs
  | _ => fail
  end.

(** [people.filter((p) => p.nights[i])]: a new array. *)
Definition filterStayed (people : loc) (i : nat) : M loc :=
  refs ← loadRefs people;
  kept ← foldM (fun kept p =>
                  b ← readFlag p i;
                  mret (if b : bool then kept ++ [p] else kept))
               [] refs;
  alloc (RefArray kept).

Definition pushNumber (a : loc) (x : number) : M unit :=
  o ← load a;
  match o with
  | NumberArray xs => store a (NumberArray (xs ++ [x]))
  | _ => fail
  end.

Definition pushRef (a : loc) (r : loc) : M unit :=
  o ← load a;
  match o with
  | RefArray refs => store a (RefArray (refs ++ [r]))
  | _ => fail
  end.

(** One turn of the inner loop: [total] is the local variable, [perNight]
    the array it pushes on. *)
Definition nightTurn (people : loc) (pricePerNight : number) (person : loc)
    (perNight : loc) (total : number) (i : nat) : M number :=
  b ← readFlag person i;
  if b : bool then
    filtered ← filterStayed people i;
    kept ← loadRefs filtered;
    let peopleThisNight := length kept in
    let costThisNight :=
      if (0 <? peopleThisNight)%nat
      then Num.div pricePerNight (Num.of_nat peopleThisNight)
      else Num.zero in
    _ ← pushNumber perNight costThisNight;
    mret (Num.add total costThisNight)
  else
    _ ← pushNumber perNight Num.zero;
    mret total.

(** One turn of the outer loop. *)
Definition personTurn (people : loc) (pricePerNight : number) (nights : Z)
    (costs : loc) (person : loc) : M unit :=
  perNight ← alloc (NumberArray []);
  total ← foldM (nightTurn people pricePerNight person perNight) Num.zero
                (seq 0 (Z.to_nat nights));
  o ← load person;
  match o with
  | PersonObj pid _ _ =>
      cost ← alloc (PersonCostObj pid perNight total);
      pushRef costs cost
  | _ => fail
  end.

Definition calculateCostsH (people : loc) (totalPrice : number) (nights : Z)
    : M loc :=
  refs ← loadRefs people;
  if (nights =? 0) || Num.strict_eq totalPrice Num.zero
     || (length refs =? 0)%nat
  then alloc (RefArray [])
  else
    let pricePerNight := Num.div totalPrice (Num.of_Z nights) in
    costs ← alloc (RefArray []);
    _ ← foldM (fun _ person =>
                 personTurn people pricePerNight nights costs person)
              tt refs;
    mret costs.

(** *** The values on the heap *)

Definition personAt (h : heap) (l : loc) : option Person :=
  match h !! l with
  | Some (PersonObj i n ns) =>
      match h !! ns with
      | Some (BoolArray flags) => Some {| id := i; name := n; nights := flags |}
      | _ => None
      end
  | _ => None
  end.

Definition rosterAt (h : heap) (l : loc) : option (list Person) :=
  match h !! l with
  | Some (RefArray refs) => mapM (personAt h) refs
  | _ => None
  end.

Definition costAt (h : heap) (l : loc) : option PersonCost :=
  match h !! l with
  | Some (PersonCostObj pid pn t) =>
      match h !! pn with
      | Some (NumberArray xs) =>
          Some {| personId := pid; perNight := xs; total := t |}
      | _ => None
      end
  | _ => None
  end.

Definition costsAt (h : heap) (l : loc) : option (list PersonCost) :=
  match h !! l with
  | Some (RefArray refs) => mapM (costAt h) refs
  | _ => None
  end.

(** The record [pc] stands at reference [c], where the objects from
    reference [base] on are [k]. *)
Definition recorded (base : nat) (k : heap) (c : loc) (pc : PersonCost)
    : Prop :=
  exists j jn : nat,
    c = (base + j)%nat /\
    k !! j = Some (PersonCostObj (personId pc) (base + jn) (total pc)) /\
    k !! jn = Some (NumberArray (perNight pc)).

End Heap.

(** ** Sample data *)

(** A person with the given id and attendance flags. *)
Definition guest (i : string) (ns : list bool) : Person :=
  {| id := i; name := ""; nights := ns |}.

(** ** The page: its state and the updates of the roster ([App.tsx])

    The callbacks that the component hands to [updateState], as functions
    from the previous state to the next one, and the values the component
    derives from its state on every render.  [nights] is the number that
    [calculateNights] returned: [None] stands for [NaN]. *)
Module App.

Record AppState : Type := mkAppState {
  totalPrice : string;
  checkInDate : string;
  checkOutDate : string;
  people : list Person
}.

(** [{ ...prev, people: ps }] *)
Definition withPeople (prev : AppState) (ps : list Person) : AppState :=
  {| totalPrice := totalPrice prev;
     checkInDate := checkInDate prev;
     checkOutDate := checkOutDate prev;
     people := ps |}.

(** The largest length of an array. *)
Definition maxArrayLength : Z := 4294967295.

(** [new Array(k).fill(false)] for an integer [k]: a [RangeError] when [k] is
    negative or above the largest length. *)
Definition newFlags (k : Z) : completion (list bool) :=
  if (k <? 0) || (maxArrayLength <? k) then RangeError
  else Normal (replicate (Z.to_nat k) false).

(** [nights || 0]: [0] and [NaN] are falsy. *)
Definition orZero (nights : option Z) : Z :=
  match nights with
  | Some n => n
  | None => 0
  end.

(** [{ ...p, nights: [...p.nights.slice(0, n), ...new Array(Math.max(0, n -
    p.nights.length)).fill(false)] }] *)
Definition resizePerson (n : Z) (p : Person) : completion Person :=
  pad ← newFlags (Z.max 0 (n - Z.of_nat (length (nights p))));
  mret {| id := id p; name := name p;
          nights := take (Z.to_nat n) (nights p) ++ pad |}.

(** [{ ...p, nights: [] }] *)
Definition clearPerson (p : Person) : Person :=
  {| id := id p; name := name p; nights := [] |}.

(** The effect that runs when the night count changes: [nights > 0] is false
    on [NaN]. *)
Definition resizeNights (nights : option Z) (prev : AppState)
    : completion AppState :=
  match nights with
  | Some n =>
      if 0 <? n then
        ps ← mapM (resizePerson n) (people prev);
        mret (withPeople prev ps)
      else mret (withPeople prev (map clearPerson (people prev)))
  | None => mret (withPeople prev (map clearPerson (people prev)))
  end.

(** [addPerson], where [now] is [Date.now().toString()]. *)
Definition addPerson (now : string) (nights : option Z) (prev : AppState)
    : completion AppState :=
  flags ← newFlags (orZero nights);
  let newPerson := {| id := now; name := ""; nights := flags |} in
  mret (withPeople prev (people prev ++ [newPerson])).

Definition removePerson (i : string) (prev : AppState) : AppState :=
  withPeople prev
    (filter (fun p => negb (String.eqb (id p) i)) (people prev)).

Definition updatePersonName (i nm : string) (prev : AppState) : AppState :=
  withPeople prev
    (map (fun p => if String.eqb (id p) i
                   then {| id := id p; name := nm; nights := nights p |}
                   else p)
         (people prev)).

(** [p.nights.map((n, i) => i === nightIndex ? !n : n)] *)
Definition toggleFlags (nightIndex : Z) (flags : list bool) : list bool :=
  imap (fun i n => if Z.of_nat i =? nightIndex then negb n else n) flags.

Definition toggleNight (personId : string) (nightIndex : Z)
    (prev : AppState) : AppState :=
  withPeople prev
    (map (fun p => if String.eqb (id p) personId
                   then {| id := id p; name := name p;
                           nights := toggleFlags nightIndex (nights p) |}
                   else p)
         (people prev)).

(** [costs.find((c) => c.personId === id)] *)
Definition findCost (costs : list PersonCost) (i : string)
    : option PersonCost :=
  List.find (fun c => String.eqb (personId c) i) costs.

(** [people.length > 0 && costs.length > 0 && costs.some((c) => c.total > 0)]:
    whether the button that copies the summary is shown. *)
Definition summaryShown (ps : list Person) (costs : list PersonCost) : bool :=
  (0 <? length ps)%nat && (0 <? length costs)%nat
  && existsb (fun c => SFltb Num.zero (total c)) costs.

Section Derived.

Variable LocalTZA : Z -> bool -> Z.
Variable hostParse : string -> option Z.

(** [const nights = calculateNights(checkInDate, checkOutDate)] *)
Definition nights (s : AppState) : option Z :=
  calculateNights LocalTZA hostParse (checkInDate s) (checkOutDate s).

(** [const nightDates = getNightDates(checkInDate, nights)].  When [nights]
    is [NaN], [nights === 0] is false and so is [i < nights]: the loop makes
    no turn and the array is empty. *)
Definition nightDates (s : AppState) : completion (list string) :=
  match nights s with
  | Some n => getNightDates LocalTZA hostParse (checkInDate s) n
  | None => Normal []
  end.

End Derived.

End App.

(** ** [getNightDates] turn by turn

    The page passes on what [calculateNights] returned, which may be [NaN].
    Here the function is embedded once more with such a night count and
    with its [for] loop run one test and one turn at a time; [fuel] bounds
    the number of tests, and [None] is a run that was cut short. *)

(** [nights === 0]: false on [NaN]. *)
Definition strictEqZero (nights : option Z) : bool :=
  match nights with
  | Some n => n =? 0
  | None => false
  end.

(** [i < nights]: a comparison with [NaN] is false. *)
Definition lessThan (i : Z) (nights : option Z) : bool :=
  match nights with
  | Some n => i <? n
  | None => false
  end.

Section Stepwise.

Variable LocalTZA : Z -> bool -> Z.
Variable hostParse : string -> option Z.

(** [for (let i = 0; i < nights; i++) { ...; dates.push(...) }], from the
    test of turn [i] on. *)
Fixpoint nightDatesLoop (fuel : nat) (checkInDate : option Z)
    (nights : option Z) (i : nat) (dates : list string)
    : option (completion (list string)) :=
  match fuel with
  | O => None
  | S fuel' =>
      if lessThan (Z.of_nat i) nights then
        match nightLabel LocalTZA checkInDate i with
        | Normal label =>
            nightDatesLoop fuel' checkInDate nights (S i) (dates ++ [label])
        | RangeError => Some RangeError
        end
      else Some (Normal dates)
  end.

Definition getNightDatesStepwise (fuel : nat) (checkIn : string)
    (nights : option Z) : option (completion (list string)) :=
  if isEmpty checkIn || strictEqZero nights then Some (Normal [])
  else
    let checkInDate :=
      newDate LocalTZA hostParse (checkIn ++ "T00:00:00")%string in
    nightDatesLoop fuel checkInDate nights 0 [].

(** [getNightDates(checkInDate, nights)] as the page calls it. *)
Definition nightDatesStepwise (fuel : nat) (s : App.AppState)
    : option (completion (list string)) :=
  getNightDatesStepwise fuel (App.checkInDate s)
                        (App.nights LocalTZA hostParse s).

End Stepwise.

(* ================================================================== *)
(** * Properties *)

(** ** Binary64 rounding: what the calculator's sums rely on *)

Module NumFacts.

Lemma digits2_pos_size (p : positive) : digits2_pos p = Pos.size p.
Proof. induction p; simpl; congruence. Qed.

Lemma iter_pos_nat {A : Type} (f : A -> A) (p : positive) (x : A) :
  SpecFloat.iter_pos f p x = Nat.iter (Pos.to_nat p) f x.
Proof.
  revert x. induction p as [p IH|p IH|]; intros x; cbn [SpecFloat.iter_pos].
  - rewrite !IH, Pos2Nat.inj_xI, <- Nat.iter_add, <- Nat.iter_succ_r.
    f_equal. lia.
  - rewrite !IH, Pos2Nat.inj_xO, <- Nat.iter_add. f_equal. lia.
  - reflexivity.
Qed.

Lemma shr_m_shr_1 (mrs : shr_record) :
  0 <= shr_m mrs -> shr_m (shr_1 mrs) = Z.div2 (shr_m mrs).
Proof.
  destruct mrs as [m r s]. simpl. intros Hm.
  destruct m as [|[p|p|]|p]; try reflexivity; lia.
Qed.

Lemma shr_m_iter (n : nat) (mrs : shr_record) :
  0 <= shr_m mrs -> shr_m (Nat.iter n shr_1 mrs) = shr_m mrs / 2 ^ Z.of_nat n.
Proof.
  intros Hm. induction n as [|n IH].
  - simpl. by rewrite Z.div_1_r.
  - rewrite Nat.iter_succ, shr_m_shr_1, IH.
    + rewrite Z.div2_div, Z.div_div by lia.
      f_equal. rewrite Nat2Z.inj_succ, Z.pow_succ_r by lia. lia.
    + rewrite IH. apply Z.div_pos; lia.
Qed.

Lemma Zdigits2_lower (m : positive) :
  2 ^ (Zpos (digits2_pos m) - 1) <= Zpos m.
Proof.
  rewrite digits2_pos_size.
  pose proof (Pos.size_le m) as H.
  apply Pos2Z.pos_le_pos in H. rewrite Pos2Z.inj_pow in H.
  change (Zpos m~0) with (2 * Zpos m) in H.
  replace (Zpos (Pos.size m)) with (Z.succ (Zpos (Pos.size m) - 1)) in H by lia.
  rewrite Z.pow_succ_r in H by lia. lia.
Qed.

Lemma shr_m_of_loc (m : Z) (l : location) : shr_m (shr_record_of_loc m l) = m.
Proof. by destruct l as [|[]]. Qed.

(** Shifting a positive mantissa to its canonical exponent keeps it positive,
    as long as the exponent is not below [emin]. *)
Lemma shr_fexp_pos (m e : Z) (l : location) (mrs : shr_record) (e' : Z) :
  0 < m -> emin Num.prec Num.emax <= e ->
  shr_fexp Num.prec Num.emax m e l = (mrs, e') ->
  0 < shr_m mrs /\ emin Num.prec Num.emax <= e'.
Proof.
  intros Hm He. unfold shr_fexp, shr, fexp, emin, Num.prec, Num.emax in *.
  destruct m as [|p|p]; try lia. cbn [Zdigits2].
  pose proof (Zdigits2_lower p) as Hd.
  set (d := Zpos (digits2_pos p)) in *.
  destruct (Z.max (d + e - 53) (3 - 1024 - 53) - e) as [|q|q] eqn:Hq;
    intros [= <- <-]; rewrite ?shr_m_of_loc; try lia.
  rewrite iter_pos_nat, shr_m_iter, shr_m_of_loc, positive_nat_Z
    by (rewrite shr_m_of_loc; lia).
  assert (Zpos q = d - 53) as Hq' by lia.
  split; [|lia].
  apply Z.lt_le_trans with (2 ^ 52); [lia|].
  apply Z.div_le_lower_bound; [lia|].
  rewrite <- Z.pow_add_r by lia.
  replace (Zpos q + 52) with (d - 1) by lia. exact Hd.
Qed.

Lemma shr_fexp_emin (m e : Z) (l : location) :
  emin Num.prec Num.emax <= snd (shr_fexp Num.prec Num.emax m e l).
Proof.
  unfold shr_fexp, shr, fexp, emin, Num.prec, Num.emax.
  destruct (Z.max (Zdigits2 m + e - 53) (3 - 1024 - 53) - e) eqn:Hq; simpl; lia.
Qed.

Lemma round_nearest_even_pos (m : Z) (l : location) :
  0 < m -> 0 < round_nearest_even m l.
Proof.
  intros Hm. destruct l as [|[]]; simpl; try lia.
  destruct (Z.even m); lia.
Qed.

Lemma binary_round_aux_wf s m e l : Num.wf (binary_round_aux Num.prec Num.emax s m e l).
Proof.
  unfold binary_round_aux.
  destruct (shr_fexp _ _ m e l) as [mrs' e1] eqn:H1.
  destruct (shr_fexp _ _ (round_nearest_even _ _) e1 loc_Exact) as [mrs'' e2] eqn:H2.
  pose proof (shr_fexp_emin (round_nearest_even (shr_m mrs') (loc_of_shr_record mrs')) e1 loc_Exact) as H.
  rewrite H2 in H. simpl in H.
  destruct (shr_m mrs''); simpl; try done.
  destruct (_ <=? _); simpl; done.
Qed.

(** Rounding a positive mantissa never gives a zero when the exponent is at
    least [emin]: the result is finite or an infinity, with the given sign. *)
Lemma binary_round_aux_pos s m e l :
  0 < m -> emin Num.prec Num.emax <= e ->
  binary_round_aux Num.prec Num.emax s m e l = S754_infinity s
  \/ exists m' e', binary_round_aux Num.prec Num.emax s m e l = S754_finite s m' e'.
Proof.
  intros Hm He. unfold binary_round_aux.
  destruct (shr_fexp _ _ m e l) as [mrs' e1] eqn:H1.
  destruct (shr_fexp_pos _ _ _ _ _ Hm He H1) as [Hm1 He1].
  destruct (shr_fexp _ _ (round_nearest_even _ _) e1 loc_Exact) as [mrs'' e2] eqn:H2.
  apply shr_fexp_pos in H2 as [Hm2 He2]; [|by apply round_nearest_even_pos|done].
  destruct (shr_m mrs'') as [|p|p]; try lia.
  destruct (_ <=? _); eauto.
Qed.

Lemma shl_align_emin (m : positive) (e e' : Z) :
  emin Num.prec Num.emax <= e -> emin Num.prec Num.emax <= e' ->
  emin Num.prec Num.emax <= snd (shl_align m e e').
Proof. intros. unfold shl_align. destruct (e' - e); simpl; lia. Qed.

Lemma binary_round_pos s m e :
  emin Num.prec Num.emax <= e ->
  binary_round Num.prec Num.emax s m e = S754_infinity s
  \/ exists m' e', binary_round Num.prec Num.emax s m e = S754_finite s m' e'.
Proof.
  intros He. unfold binary_round.
  destruct (shl_align _ _ _) as [mz ez] eqn:Hs.
  apply binary_round_aux_pos; [lia|].
  pose proof (shl_align_emin m e (fexp Num.prec Num.emax (Zpos (digits2_pos m) + e))) as H.
  rewrite Hs in H. apply H; [done|]. unfold fexp. lia.
Qed.

Lemma binary_round_wf s m e : Num.wf (binary_round Num.prec Num.emax s m e).
Proof.
  unfold binary_round. destruct (shl_align _ _ _). apply binary_round_aux_wf.
Qed.

Lemma div_wf (x y : number) : Num.wf (Num.div x y).
Proof.
  destruct x as [sx|sx| |sx mx ex], y as [sy|sy| |sy my ey]; simpl; try done.
  destruct (SFdiv_core_binary _ _ _ _ _ _) as [[mz ez] lz].
  apply binary_round_aux_wf.
Qed.

Lemma add_wf (x y : number) : Num.wf x -> Num.wf y -> Num.wf (Num.add x y).
Proof.
  intros Hx Hy.
  destruct x as [sx|sx| |sx mx ex], y as [sy|sy| |sy my ey]; simpl; try done;
    try (by destruct sx, sy).
  unfold binary_normalize. destruct (_ + _); try done; apply binary_round_wf.
Qed.

(** A sum is [-0] only when both terms are. *)
Lemma add_neg_zero (x y : number) :
  Num.wf x -> Num.wf y -> Num.add x y = Num.neg_zero -> x = Num.neg_zero.
Proof.
  intros Hx Hy.
  destruct x as [sx|sx| |sx mx ex], y as [sy|sy| |sy my ey]; simpl; try done;
    try (by destruct sx, sy).
  unfold binary_normalize. destruct (_ + _) eqn:E; try done.
  - destruct (binary_round_pos false p (ex `min` ey)) as [H|(m'&e'&H)];
      [simpl in *; lia| |]; rewrite H; done.
  - destruct (binary_round_pos true p (ex `min` ey)) as [H|(m'&e'&H)];
      [simpl in *; lia| |]; rewrite H; done.
Qed.

Lemma add_zero_r (x : number) : x <> Num.neg_zero -> Num.add x Num.zero = x.
Proof. destruct x as [[]| | |]; simpl; done. Qed.

Lemma Zdigits2_log2 (m : Z) : 0 < m -> Zdigits2 m = Z.log2 m + 1.
Proof.
  destruct m as [|p|p]; try lia. intros _. simpl.
  rewrite digits2_pos_size. destruct p; simpl; lia.
Qed.

Lemma Zdigits2_nonneg (m : Z) : 0 <= Zdigits2 m.
Proof. destruct m; simpl; lia. Qed.

Lemma Zdigits2_mono (a b : Z) : 0 <= a -> a <= b -> Zdigits2 a <= Zdigits2 b.
Proof.
  intros Ha Hab. destruct (Z.eq_dec a 0) as [->|Hne].
  - apply Zdigits2_nonneg.
  - rewrite !Zdigits2_log2 by lia. pose proof (Z.log2_le_mono a b Hab). lia.
Qed.

Lemma Zdigits2_shiftr (m q : Z) :
  0 < m -> 0 <= q -> 0 < m / 2 ^ q -> Zdigits2 (m / 2 ^ q) = Zdigits2 m - q.
Proof.
  intros Hm Hq Hpos. rewrite !Zdigits2_log2 by lia.
  rewrite <- Z.shiftr_div_pow2 by lia.
  rewrite Z.log2_shiftr by lia.
  assert (2 ^ q <= m) as Hle.
  { destruct (Z.le_gt_cases (2 ^ q) m) as [|Hlt]; [done|].
    rewrite Z.div_small in Hpos by lia. lia. }
  apply Z.log2_le_pow2 in Hle; lia.
Qed.

Lemma Zdigits2_small (m q : Z) :
  0 <= m -> 0 <= q -> m / 2 ^ q = 0 -> Zdigits2 m <= q.
Proof.
  intros Hm Hq H0. destruct (Z.eq_dec m 0) as [->|Hne]; [simpl; lia|].
  rewrite Zdigits2_log2 by lia.
  assert (m < 2 ^ q) as Hlt.
  { destruct (Z.lt_ge_cases m (2 ^ q)) as [|Hge]; [done|].
    assert (1 <= m / 2 ^ q); [|lia].
    apply Z.div_le_lower_bound; lia. }
  apply Z.log2_lt_pow2 in Hlt; lia.
Qed.

Lemma shr_fexp_settled (m e : Z) (l : location) (mrs : shr_record) (e' : Z) :
  Num.roundable m e ->
  shr_fexp Num.prec Num.emax m e l = (mrs, e') ->
  Num.settled (shr_m mrs) e'.
Proof.
  intros [Hm He]. unfold shr_fexp, shr.
  pose proof (Zdigits2_nonneg m) as Hd.
  unfold Num.settled, fexp, emin, Num.prec, Num.emax in *.
  destruct (Z.max (Zdigits2 m + e - 53) (3 - 1024 - 53) - e) as [|q|q] eqn:Hq;
    intros [= <- <-]; rewrite ?shr_m_of_loc; try lia.
  - destruct (Z.eq_dec m 0) as [->|]; [right; change (Zdigits2 0) with 0 in *; lia|left; lia].
  - rewrite iter_pos_nat, shr_m_iter, shr_m_of_loc, positive_nat_Z
      by (rewrite shr_m_of_loc; lia).
    assert (0 <= m / 2 ^ Zpos q) as Hnn by (apply Z.div_pos; lia).
    destruct (Z.eq_dec (m / 2 ^ Zpos q) 0) as [H0|Hne].
    + right. split; [done|].
      pose proof (Zdigits2_small m (Zpos q) Hm ltac:(lia) H0). lia.
    + left. split; [lia|].
      assert (0 < m) as Hpos.
      { destruct (Z.eq_dec m 0) as [->|]; [|lia].
        by rewrite Z.div_0_l in Hne by lia. }
      rewrite Zdigits2_shiftr by lia. lia.
Qed.

Lemma round_nearest_even_bounds (m : Z) (l : location) :
  m <= round_nearest_even m l <= m + 1.
Proof. destruct l as [|[]]; simpl; try lia. destruct (Z.even m); lia. Qed.

Lemma settled_round (m e : Z) (l : location) :
  Num.settled m e -> Num.roundable (round_nearest_even m l) e.
Proof.
  intros Hs. pose proof (round_nearest_even_bounds m l) as Hb.
  split; [destruct Hs; lia|].
  destruct Hs as [[Hm Hc]|[-> ->]].
  - pose proof (Zdigits2_mono m (round_nearest_even m l) ltac:(lia) ltac:(lia)).
    unfold fexp in *. lia.
  - unfold fexp. lia.
Qed.

Lemma binary_round_aux_valid s m e l :
  Num.roundable m e -> Num.valid (binary_round_aux Num.prec Num.emax s m e l) = true.
Proof.
  intros Hr. unfold binary_round_aux.
  destruct (shr_fexp _ _ m e l) as [mrs' e1] eqn:H1.
  pose proof (shr_fexp_settled _ _ _ _ _ Hr H1) as Hs1.
  destruct (shr_fexp _ _ (round_nearest_even _ _) e1 loc_Exact) as [mrs'' e2] eqn:H2.
  apply shr_fexp_settled in H2; [|by apply settled_round].
  destruct (shr_m mrs'') as [|p|p] eqn:Hp; try done.
  destruct (e2 <=? _) eqn:Hle; [|done].
  destruct H2 as [[_ Hc]|[? _]]; [|lia].
  unfold Num.valid, valid_binary, bounded, canonical_mantissa.
  simpl in Hc. rewrite Hc, Z.eqb_refl. exact Hle.
Qed.

Lemma div_eucl_div_mod (a b : Z) : Z.div_eucl a b = (a / b, a mod b).
Proof. unfold Z.div, Z.modulo. by destruct (Z.div_eucl a b). Qed.

Lemma Zdigits2_upper (m : Z) : 0 <= m -> m < 2 ^ Zdigits2 m.
Proof.
  intros Hm. destruct (Z.eq_dec m 0) as [->|]; [simpl; lia|].
  rewrite Zdigits2_log2 by lia.
  pose proof (Z.log2_spec m ltac:(lia)). 
  replace (Z.log2 m + 1) with (Z.succ (Z.log2 m)) by lia. lia.
Qed.

Lemma Zdigits2_ge (m k : Z) : 0 <= k -> 2 ^ k <= m -> k + 1 <= Zdigits2 m.
Proof.
  intros Hk Hle. assert (0 < m) by (pose proof (Z.pow_pos_nonneg 2 k); lia).
  rewrite Zdigits2_log2 by lia. apply Z.log2_le_pow2 in Hle; lia.
Qed.

(** The quotient the division hands to the rounding step has enough digits. *)
Lemma SFdiv_core_binary_roundable (m1 m2 : positive) (e1 e2 : Z) mz ez lz :
  SFdiv_core_binary Num.prec Num.emax (Zpos m1) e1 (Zpos m2) e2 = (mz, ez, lz) ->
  Num.roundable mz ez.
Proof.
  unfold SFdiv_core_binary.
  set (d1 := Zdigits2 (Zpos m1)). set (d2 := Zdigits2 (Zpos m2)).
  set (e' := Z.min (fexp Num.prec Num.emax (d1 + e1 - (d2 + e2))) (e1 - e2)).
  set (s := e1 - e2 - e').
  assert (0 <= s) as Hs by (unfold s, e'; lia).
  set (m' := match s with Zpos _ => Z.shiftl (Zpos m1) s | 0 => Zpos m1 | Zneg _ => 0 end).
  assert (m' = Zpos m1 * 2 ^ s) as Hm'.
  { unfold m'. destruct s; [simpl; lia|by rewrite Z.shiftl_mul_pow2|lia]. }
  rewrite div_eucl_div_mod. intros [= <- <- <-].
  assert (0 < 2 ^ s) as Hps by (apply Z.pow_pos_nonneg; lia).
  split; [apply Z.div_pos; nia|].
  assert (d1 + s - d2 <= Zdigits2 (m' / Zpos m2)) as Hdig.
  { destruct (Z.le_gt_cases (d1 + s - d2) 0) as [Hk|Hk].
    - pose proof (Zdigits2_nonneg (m' / Zpos m2)). lia.
    - pose proof (Zdigits2_ge (m' / Zpos m2) (d1 + s - d2 - 1) ltac:(lia)) as Hge.
      enough (2 ^ (d1 + s - d2 - 1) <= m' / Zpos m2) by lia.
      apply Z.div_le_lower_bound; [lia|].
      pose proof (Zdigits2_upper (Zpos m2) ltac:(lia)) as Hu2. fold d2 in Hu2.
      pose proof (Zdigits2_lower m1) as Hl1.
      change (Zpos (digits2_pos m1)) with d1 in Hl1.
      assert (1 <= d2) by (unfold d2; simpl; lia).
      assert (1 <= d1) by (unfold d1; simpl; lia).
      rewrite Hm'.
      apply Z.le_trans with (2 ^ d2 * 2 ^ (d1 + s - d2 - 1)).
      { apply Z.mul_le_mono_nonneg_r; [apply Z.pow_nonneg|]; lia. }
      rewrite <- Z.pow_add_r by lia.
      replace (d2 + (d1 + s - d2 - 1)) with ((d1 - 1) + s) by lia.
      rewrite Z.pow_add_r by lia.
      apply Z.mul_le_mono_nonneg_r; lia. }
  unfold fexp in *. unfold s in Hdig. lia.
Qed.

(** Every quotient is a well-formed binary64 value, whatever the operands. *)
Lemma div_valid (x y : number) : Num.valid (Num.div x y) = true.
Proof.
  destruct x as [sx|sx| |sx mx ex], y as [sy|sy| |sy my ey]; simpl; try done.
  destruct (SFdiv_core_binary _ _ _ _ _ _) as [[mz ez] lz] eqn:Hc.
  apply binary_round_aux_valid. by eapply SFdiv_core_binary_roundable.
Qed.

Lemma of_nat_1 : Num.of_nat 1 = S754_finite false 4503599627370496 (-52).
Proof. reflexivity. Qed.

(** Dividing a well-formed number by [1] gives it back. *)
Lemma div_one (x : number) :
  Num.valid x = true -> Num.div x (Num.of_nat 1) = x.
Proof.
  rewrite of_nat_1.
  destruct x as [sx|sx| |sx mx ex]; simpl; intros Hv;
    rewrite ?xorb_false_r; try done.
  unfold bounded, canonical_mantissa in Hv.
  apply andb_prop in Hv as [Hc Hb]. apply Z.eqb_eq in Hc. apply Z.leb_le in Hb.
  unfold SFdiv_core_binary.
  change (Zdigits2 4503599627370496) with 53.
  change (Zdigits2 (Zpos mx)) with (Zpos (digits2_pos mx)).
  set (d := Zpos (digits2_pos mx)) in *.
  set (f := fexp Num.prec Num.emax (d + ex - (53 + -52))).
  assert (f = ex \/ f = ex - 1) as Hf by (unfold f, fexp, Num.prec, Num.emax, emin in *; lia).
  replace (Z.min f (ex - -52)) with f by lia.
  assert (Z.shiftl (Zpos mx) (ex - -52 - f) = Zpos mx * 2 ^ (ex - f) * 4503599627370496) as Hsh.
  { rewrite Z.shiftl_mul_pow2 by lia.
    replace (ex - -52 - f) with ((ex - f) + 52) by lia.
    rewrite Z.pow_add_r by lia. change (2 ^ 52) with 4503599627370496. lia. }
  destruct (ex - -52 - f) as [|s|s] eqn:Hs; try lia.
  rewrite Hsh, div_eucl_div_mod, Z.div_mul, Z.mod_mul by lia.
  change (new_location 4503599627370496 0) with loc_Exact.
  unfold binary_round_aux, shr_fexp, shr.
  destruct Hf as [Hf|Hf].
  - replace (ex - f) with 0 by lia. rewrite Z.mul_1_r.
    change (Zdigits2 (Zpos mx)) with d. rewrite Hf, Hc, Z.sub_diag. simpl.
    change (Zpos (digits2_pos mx)) with d. rewrite Hc, Z.sub_diag. simpl.
    apply Z.leb_le in Hb. unfold Num.emax, Num.prec in *. by rewrite Hb.
  - replace (ex - f) with 1 by lia. replace (Zpos mx * 2 ^ 1) with (Zpos mx~0) by lia.
    replace (Zdigits2 (Zpos mx~0)) with (d + 1) by (unfold d; simpl; lia).
    replace (d + 1 + f) with (d + ex) by lia. rewrite Hc.
    replace (ex - f) with 1 by lia. simpl.
    change (Zpos (digits2_pos mx)) with d.
    replace (f + 1) with ex by lia. rewrite Hc, Z.sub_diag. simpl.
    apply Z.leb_le in Hb. unfold Num.emax, Num.prec in *. by rewrite Hb.
Qed.

Lemma div_div_one (x y : number) :
  Num.div (Num.div x y) (Num.of_nat 1) = Num.div x y.
Proof. apply div_one, div_valid. Qed.

End NumFacts.

(** ** The calendar of ECMAScript and the text of dates *)

Module DateFacts.
Import ES.

Lemma isLeapYear_cases (y : Z) :
  (isLeapYear y = true /\ (y mod 4 = 0 /\ y mod 100 <> 0 \/ y mod 400 = 0))
  \/ (isLeapYear y = false /\ (y mod 4 <> 0 \/ y mod 100 = 0 /\ y mod 400 <> 0)).
Proof.
  unfold isLeapYear.
  destruct (Z.eqb_spec (y mod 4) 0), (Z.eqb_spec (y mod 100) 0),
    (Z.eqb_spec (y mod 400) 0); simpl; lia.
Qed.

Lemma DayFromYear_succ (y : Z) :
  DayFromYear (y + 1) = DayFromYear y + DaysInYear y.
Proof.
  unfold DaysInYear, DayFromYear.
  destruct (isLeapYear_cases y) as [[-> H]|[-> H]];
    Z.div_mod_to_equations; lia.
Qed.

Lemma DayFromYear_mono (a b : Z) : a <= b -> DayFromYear a <= DayFromYear b.
Proof.
  intros H. unfold DayFromYear. Z.div_mod_to_equations. lia.
Qed.

Lemma DayFromYear_lt (a b : Z) : a < b -> DayFromYear a + 365 <= DayFromYear b.
Proof.
  intros H. pose proof (DayFromYear_mono (a + 1) b ltac:(lia)).
  rewrite DayFromYear_succ in H0. unfold DaysInYear in *. destruct (isLeapYear a); lia.
Qed.

Lemma YearFromDay_spec (d : Z) :
  DayFromYear (YearFromDay d) <= d < DayFromYear (YearFromDay d + 1).
Proof.
  unfold YearFromDay.
  set (y := 1970 + d * 400 / 146097).
  assert (DayFromYear (y - 1) <= d < DayFromYear (y + 2)) as Hb.
  { unfold DayFromYear, y. Z.div_mod_to_equations. lia. }
  destruct (Z.ltb_spec d (DayFromYear y)).
  - replace (y - 1 + 1) with y by lia. lia.
  - destruct (Z.leb_spec (DayFromYear (y + 1)) d).
    + replace (y + 1 + 1) with (y + 2) by lia. lia.
    + lia.
Qed.

Lemma YearFromDay_unique (y d : Z) :
  DayFromYear y <= d < DayFromYear (y + 1) -> YearFromDay d = y.
Proof.
  intros Hy. pose proof (YearFromDay_spec d) as Hs.
  destruct (Z.lt_trichotomy (YearFromDay d) y) as [Hlt|[Heq|Hgt]]; [|done|].
  - pose proof (DayFromYear_mono (YearFromDay d + 1) y ltac:(lia)). lia.
  - pose proof (DayFromYear_mono (y + 1) (YearFromDay d) ltac:(lia)). lia.
Qed.

Lemma Day_mul (n : Z) : Day (n * msPerDay) = n.
Proof. unfold Day, msPerDay. by rewrite Z.div_mul. Qed.

Lemma Day_offset (n c : Z) : 0 <= c < msPerDay -> Day (n * msPerDay + c) = n.
Proof.
  intros Hc. unfold Day, msPerDay in *.
  rewrite Z.add_comm, Z.div_add by lia. rewrite Z.div_small by lia. lia.
Qed.

Lemma monthStart_bounds (m leap : Z) :
  0 <= leap <= 1 -> 0 <= monthStart m leap <= 335.
Proof.
  intros H. unfold monthStart.
  destruct m as [|p|p]; try lia.
  do 4 (try destruct p as [p|p|]); lia.
Qed.

Lemma monthOfDay_range (dwy leap : Z) : 0 <= monthOfDay dwy leap <= 11.
Proof. unfold monthOfDay. repeat case_match; lia. Qed.

(** Day [d] of month [m] (from 1) falls in month [m - 1] (from 0). *)
Lemma monthOfDay_monthStart (y m d : Z) :
  1 <= m <= 12 -> 1 <= d <= DaysInMonth y m ->
  let leap := if isLeapYear y then 1 else 0 in
  monthOfDay (monthStart (m - 1) leap + d - 1) leap = m - 1.
Proof.
  intros Hm Hd leap. subst leap.
  assert (m - 1 = 0 \/ m - 1 = 1 \/ m - 1 = 2 \/ m - 1 = 3 \/ m - 1 = 4
          \/ m - 1 = 5 \/ m - 1 = 6 \/ m - 1 = 7 \/ m - 1 = 8 \/ m - 1 = 9
          \/ m - 1 = 10 \/ m - 1 = 11) as H by lia.
  repeat (destruct H as [H|H]); rewrite H;
    (replace m with (m - 1 + 1) in Hd by lia); rewrite H in Hd;
    simpl in Hd; unfold monthOfDay; simpl monthStart;
    destruct (isLeapYear y); repeat case_match; lia.
Qed.

Lemma dayNumber_year_bounds (y m d : Z) :
  1 <= m <= 12 -> 1 <= d <= DaysInMonth y m ->
  DayFromYear y <= dayNumber y m d < DayFromYear (y + 1).
Proof.
  intros Hm Hd. rewrite DayFromYear_succ. unfold dayNumber, MakeDay, DaysInYear.
  replace ((m - 1) / 12) with 0 by (Z.div_mod_to_equations; lia).
  replace ((m - 1) mod 12) with (m - 1) by (Z.div_mod_to_equations; lia).
  rewrite Z.add_0_r.
  assert (m - 1 = 0 \/ m - 1 = 1 \/ m - 1 = 2 \/ m - 1 = 3 \/ m - 1 = 4
          \/ m - 1 = 5 \/ m - 1 = 6 \/ m - 1 = 7 \/ m - 1 = 8 \/ m - 1 = 9
          \/ m - 1 = 10 \/ m - 1 = 11) as H by lia.
  repeat (destruct H as [H|H]); rewrite H;
    (replace m with (m - 1 + 1) in Hd by lia); rewrite H in Hd;
    simpl in Hd; simpl monthStart;
    destruct (isLeapYear y); lia.
Qed.

(** The calendar fields of a day number give the date back. *)
Lemma civil_dayNumber (y m d c : Z) :
  1 <= m <= 12 -> 1 <= d <= DaysInMonth y m -> 0 <= c < msPerDay ->
  let t := dayNumber y m d * msPerDay + c in
  YearFromTime t = y /\ MonthFromTime t = m - 1 /\ DateFromTime t = d.
Proof.
  intros Hm Hd Hc t.
  assert (YearFromTime t = y) as Hy.
  { unfold YearFromTime, t. rewrite Day_offset by done.
    by apply YearFromDay_unique, dayNumber_year_bounds. }
  assert (DayWithinYear t
          = monthStart (m - 1) (if isLeapYear y then 1 else 0) + d - 1) as Hw.
  { unfold DayWithinYear. rewrite Hy. unfold t. rewrite Day_offset by done.
    unfold dayNumber, MakeDay.
    replace ((m - 1) / 12) with 0 by (Z.div_mod_to_equations; lia).
    replace ((m - 1) mod 12) with (m - 1) by (Z.div_mod_to_equations; lia).
    rewrite Z.add_0_r. lia. }
  assert (MonthFromTime t = m - 1) as Hmo.
  { unfold MonthFromTime, InLeapYear. rewrite Hw, Hy.
    by apply monthOfDay_monthStart. }
  split; [done|]. split; [done|].
  unfold DateFromTime. rewrite Hmo, Hw. unfold InLeapYear. rewrite Hy. lia.
Qed.

(** [MakeDay] on the calendar fields of a time, with the date moved by [i]
    days, is the day of that time moved by [i]. *)
Lemma MakeDay_fields (t i : Z) :
  MakeDay (YearFromTime t) (MonthFromTime t) (DateFromTime t + i) = Day t + i.
Proof.
  unfold MakeDay, DateFromTime, DayWithinYear.
  pose proof (monthOfDay_range (Day t - DayFromYear (YearFromTime t)) (InLeapYear t)) as Hr.
  fold (DayWithinYear t) in Hr. fold (MonthFromTime t) in Hr.
  replace (MonthFromTime t / 12) with 0 by (Z.div_mod_to_equations; lia).
  replace (MonthFromTime t mod 12) with (MonthFromTime t)
    by (Z.div_mod_to_equations; lia).
  rewrite Z.add_0_r. unfold InLeapYear. lia.
Qed.

(** Later dates have larger day numbers. *)
Lemma dayNumber_lt (y1 m1 d1 y2 m2 d2 : Z) :
  validDate y1 m1 d1 -> validDate y2 m2 d2 ->
  dateLt y1 m1 d1 y2 m2 d2 -> dayNumber y1 m1 d1 < dayNumber y2 m2 d2.
Proof.
  intros (_ & Hm1 & Hd1) (_ & Hm2 & Hd2) Hlt.
  pose proof (dayNumber_year_bounds y1 m1 d1 Hm1 Hd1) as Hb1.
  pose proof (dayNumber_year_bounds y2 m2 d2 Hm2 Hd2) as Hb2.
  destruct Hlt as [Hy|[-> Hlt]].
  - pose proof (DayFromYear_mono (y1 + 1) y2 ltac:(lia)). lia.
  - unfold dayNumber, MakeDay.
    replace ((m1 - 1) / 12) with 0 by (Z.div_mod_to_equations; lia).
    replace ((m1 - 1) mod 12) with (m1 - 1) by (Z.div_mod_to_equations; lia).
    replace ((m2 - 1) / 12) with 0 by (Z.div_mod_to_equations; lia).
    replace ((m2 - 1) mod 12) with (m2 - 1) by (Z.div_mod_to_equations; lia).
    rewrite !Z.add_0_r.
    destruct Hlt as [Hm|[-> Hd]]; [|lia].
    clear Hb1 Hb2.
    assert (m1 - 1 = 0 \/ m1 - 1 = 1 \/ m1 - 1 = 2 \/ m1 - 1 = 3 \/ m1 - 1 = 4
          \/ m1 - 1 = 5 \/ m1 - 1 = 6 \/ m1 - 1 = 7 \/ m1 - 1 = 8 \/ m1 - 1 = 9
          \/ m1 - 1 = 10 \/ m1 - 1 = 11) as H by lia.
    assert (m2 - 1 = 0 \/ m2 - 1 = 1 \/ m2 - 1 = 2 \/ m2 - 1 = 3 \/ m2 - 1 = 4
          \/ m2 - 1 = 5 \/ m2 - 1 = 6 \/ m2 - 1 = 7 \/ m2 - 1 = 8 \/ m2 - 1 = 9
          \/ m2 - 1 = 10 \/ m2 - 1 = 11) as H' by lia.
    replace m1 with (m1 - 1 + 1) in Hd1, Hm by lia.
    replace m2 with (m2 - 1 + 1) in Hd2, Hm by lia.
    repeat (destruct H as [H|H]); rewrite H in *; simpl in Hd1;
      repeat (destruct H' as [H'|H']); rewrite H' in *; try lia; simpl in Hd2;
      simpl monthStart; destruct (isLeapYear y2); lia.
Qed.

(** *** Text of dates *)

Lemma digitValue_digitChar (d : Z) :
  0 <= d <= 9 -> digitValue (digitChar d) = Some d.
Proof.
  intros H.
  assert (d = 0 \/ d = 1 \/ d = 2 \/ d = 3 \/ d = 4 \/ d = 5 \/ d = 6 \/ d = 7
          \/ d = 8 \/ d = 9) as Hd by lia.
  repeat (destruct Hd as [Hd|Hd]); subst d; reflexivity.
Qed.

Lemma digitChar_not (c : ascii) (d : Z) :
  0 <= d <= 9 -> digitValue c = None -> Ascii.eqb (digitChar d) c = false.
Proof.
  intros H Hc. destruct (Ascii.eqb_spec (digitChar d) c) as [<-|]; [|done].
  by rewrite digitValue_digitChar in Hc.
Qed.

Lemma padDigits_2 (n : Z) :
  padDigits 2 n
  = String (digitChar (n / 10 mod 10)) (String (digitChar (n / 1 mod 10)) "").
Proof. reflexivity. Qed.

Lemma padDigits_4 (n : Z) :
  padDigits 4 n
  = String (digitChar (n / 1000 mod 10))
      (String (digitChar (n / 100 mod 10))
         (String (digitChar (n / 10 mod 10))
            (String (digitChar (n / 1 mod 10)) ""))).
Proof. reflexivity. Qed.

Lemma digitsValue_2 (a b : Z) :
  0 <= a <= 9 -> 0 <= b <= 9 ->
  digitsValue 0 (String (digitChar a) (String (digitChar b) "")) = Some (10 * a + b).
Proof.
  intros Ha Hb. cbn [digitsValue]. rewrite !digitValue_digitChar by done.
  f_equal; lia.
Qed.

Lemma digitsValue_4 (a b c d : Z) :
  0 <= a <= 9 -> 0 <= b <= 9 -> 0 <= c <= 9 -> 0 <= d <= 9 ->
  digitsValue 0 (String (digitChar a) (String (digitChar b)
                  (String (digitChar c) (String (digitChar d) ""))))
  = Some (1000 * a + 100 * b + 10 * c + d).
Proof.
  intros Ha Hb Hc Hd. cbn [digitsValue]. rewrite !digitValue_digitChar by done.
  f_equal; lia.
Qed.

Lemma mod10_range (n : Z) : 0 <= n mod 10 <= 9.
Proof. pose proof (Z.mod_pos_bound n 10). lia. Qed.

(** A date of the calendar, written [YYYY-MM-DD] and followed by
    [T00:00:00], is read as that date at midnight. *)
Lemma isoDateTime_isoDate (y m d : Z) :
  validDate y m d ->
  isoDateTime (isoDate y m d ++ "T00:00:00")%string = Some (y, m, d, (0, 0, 0)).
Proof.
  intros (Hy & Hm & Hd).
  assert (d <= 31) as Hd31.
  { unfold DaysInMonth in Hd. repeat case_match; lia. }
  unfold isoDate, isoYear.
  replace ((0 <=? y) && (y <=? 9999)) with true by lia.
  rewrite padDigits_4, !padDigits_2.
  unfold isoDateTime.
  cbn [String.append String.length Nat.eqb charAt String.get isChar substring
       andb].
  change (Ascii.eqb "-" "-") with true. change (Ascii.eqb "T" "T") with true.
  change (Ascii.eqb ":" ":") with true. cbn [andb].
  rewrite digitsValue_4, !digitsValue_2 by apply mod10_range.
  change (digitsValue 0 "00") with (Some 0).
  replace (1000 * (y / 1000 mod 10) + 100 * (y / 100 mod 10)
           + 10 * (y / 10 mod 10) + y / 1 mod 10) with y
    by (Z.div_mod_to_equations; lia).
  replace (10 * (m / 10 mod 10) + m / 1 mod 10) with m
    by (Z.div_mod_to_equations; lia).
  replace (10 * (d / 10 mod 10) + d / 1 mod 10) with d
    by (Z.div_mod_to_equations; lia).
  replace ((1 <=? m) && (m <=? 12) && (1 <=? d) && (d <=? DaysInMonth y m))
    with true by lia.
  reflexivity.
Qed.

Lemma beforeFirst_append (sep : ascii) (s1 s2 : string) :
  beforeFirst sep s1 = s1 ->
  beforeFirst sep (s1 ++ String sep s2)%string = s1.
Proof.
  induction s1 as [|c s1 IH]; intros H; simpl in *.
  - by rewrite Ascii.eqb_refl.
  - destruct (Ascii.eqb c sep); [done|].
    injection H as H. by rewrite IH.
Qed.

Lemma beforeFirst_digit (sep : ascii) (n : Z) (s : string) :
  digitValue sep = None ->
  beforeFirst sep (String (digitChar (n mod 10)) s)
  = String (digitChar (n mod 10)) (beforeFirst sep s).
Proof.
  intros H. cbn [beforeFirst].
  by rewrite digitChar_not by (apply mod10_range || done).
Qed.

Lemma beforeFirst_padDigits (sep : ascii) (w : nat) (n : Z) (s : string) :
  digitValue sep = None ->
  beforeFirst sep (padDigits w n ++ s)%string
  = (padDigits w n ++ beforeFirst sep s)%string.
Proof.
  intros H. induction w as [|w IH]; [done|].
  cbn [padDigits String.append]. by rewrite beforeFirst_digit, IH.
Qed.

Lemma beforeFirst_padDigits_end (sep : ascii) (w : nat) (n : Z) :
  digitValue sep = None -> beforeFirst sep (padDigits w n) = padDigits w n.
Proof.
  intros H. induction w as [|w IH]; [done|].
  cbn [padDigits]. by rewrite beforeFirst_digit, IH.
Qed.

Lemma beforeFirst_isoYear (y : Z) (s : string) :
  beforeFirst "T" (isoYear y ++ s)%string
  = (isoYear y ++ beforeFirst "T" s)%string.
Proof.
  unfold isoYear. destruct ((0 <=? y) && (y <=? 9999)).
  - by apply beforeFirst_padDigits.
  - destruct (y <? 0); cbn [String.append beforeFirst];
      rewrite beforeFirst_padDigits by done; reflexivity.
Qed.

(** No [T] in a date: [split('T')[0]] of a date-time is its date. *)
Lemma beforeFirst_isoDate (y m d : Z) :
  beforeFirst "T" (isoDate y m d) = isoDate y m d.
Proof.
  unfold isoDate. rewrite beforeFirst_isoYear. f_equal.
  change (beforeFirst "T" ("-" ++ padDigits 2 m ++ "-" ++ padDigits 2 d)%string)
    with (String "-" (beforeFirst "T" (padDigits 2 m ++ "-" ++ padDigits 2 d)%string)).
  rewrite beforeFirst_padDigits by done.
  change (beforeFirst "T" ("-" ++ padDigits 2 d)%string)
    with (String "-" (beforeFirst "T" (padDigits 2 d))).
  by rewrite beforeFirst_padDigits_end.
Qed.

Lemma append_assoc (a b c : string) :
  ((a ++ b) ++ c)%string = (a ++ (b ++ c))%string.
Proof. induction a; simpl; congruence. Qed.

Lemma beforeFirst_toISOString (t : Z) :
  beforeFirst "T" (toISOString t)
  = isoDate (YearFromTime t) (MonthFromTime t + 1) (DateFromTime t).
Proof.
  unfold toISOString.
  apply (beforeFirst_append "T"), beforeFirst_isoDate.
Qed.

(** *** The calculator on dates of the calendar *)

Lemma dayNumber_range (y m d : Z) :
  validDate y m d -> -719528 <= dayNumber y m d <= 2932896.
Proof.
  intros (Hy & Hm & Hd).
  pose proof (dayNumber_year_bounds y m d Hm Hd) as Hb.
  pose proof (DayFromYear_mono 0 y ltac:(lia)) as H0.
  pose proof (DayFromYear_mono (y + 1) 10000 ltac:(lia)) as H1.
  change (DayFromYear 0) with (-719528) in H0.
  change (DayFromYear 10000) with 2932897 in H1. lia.
Qed.

Lemma isEmpty_isoDate (y m d : Z) : isEmpty (isoDate y m d) = false.
Proof.
  unfold isoDate, isoYear. by destruct ((0 <=? y) && (y <=? 9999)).
Qed.

Section OnDates.

Variable LocalTZA : Z -> bool -> Z.
Variable hostParse : string -> option Z.

(** The offset of the zone is less than a day. *)
Hypothesis offset_small : forall t b, Z.abs (LocalTZA t b) < msPerDay.

Lemma newDate_isoDate (y m d : Z) :
  validDate y m d ->
  newDate LocalTZA hostParse (isoDate y m d ++ "T00:00:00")%string
  = Some (UTC LocalTZA (dayNumber y m d * msPerDay)).
Proof.
  intros Hv. unfold newDate, parse. rewrite isoDateTime_isoDate by done.
  fold (dayNumber y m d). unfold MakeDate, MakeTime. rewrite !Z.add_0_r.
  pose proof (dayNumber_range y m d Hv) as Hr.
  pose proof (offset_small (dayNumber y m d * msPerDay) false) as Ho.
  unfold TimeClip, UTC, msPerDay in *.
  replace (_ <=? _) with true by lia. reflexivity.
Qed.

End OnDates.

End DateFacts.

(** ** The loops of [calculateCosts] *)

Section CostLoops.
Variable people : list Person.
Variable pricePerNight : number.

Lemma nightStep_foldl person (ixs : list nat) (pn : list number) (t : number) :
  foldl (nightStep people pricePerNight person) (pn, t) ixs
  = (pn ++ map (nightCost people pricePerNight person) ixs,
     foldl (addNight people pricePerNight person) t ixs).
Proof.
  revert pn t. induction ixs as [|i ixs IH]; intros pn t; simpl.
  - by rewrite app_nil_r.
  - unfold nightCost at 1, addNight at 2, share.
    destruct (stayed person i); simpl; rewrite IH, <- app_assoc; done.
Qed.

Lemma nightLoop_eq person (n : Z) :
  nightLoop people pricePerNight person n
  = (map (nightCost people pricePerNight person) (seq 0 (Z.to_nat n)),
     foldl (addNight people pricePerNight person) Num.zero
           (seq 0 (Z.to_nat n))).
Proof. unfold nightLoop. by rewrite nightStep_foldl. Qed.

Lemma perNight_personCost person (n : Z) :
  perNight (personCost people pricePerNight n person)
  = map (nightCost people pricePerNight person) (seq 0 (Z.to_nat n)).
Proof. unfold personCost. by rewrite nightLoop_eq. Qed.

Lemma total_personCost person (n : Z) :
  total (personCost people pricePerNight n person)
  = foldl (addNight people pricePerNight person) Num.zero
          (seq 0 (Z.to_nat n)).
Proof. unfold personCost. by rewrite nightLoop_eq. Qed.

Lemma personId_personCost person (n : Z) :
  personId (personCost people pricePerNight n person) = id person.
Proof. unfold personCost. by rewrite nightLoop_eq. Qed.

End CostLoops.

Lemma foldl_snoc_map {A B : Type} (f : A -> B) (l : list A) (acc : list B) :
  foldl (fun bs a => bs ++ [f a]) acc l = acc ++ map f l.
Proof.
  revert acc. induction l as [|a l IH]; intros acc; simpl.
  - by rewrite app_nil_r.
  - by rewrite IH, <- app_assoc.
Qed.

(** Past the three guards, the outer loop maps [personCost] over the roster. *)
Lemma calculateCosts_eq (people : list Person) (totalPrice : number) (n : Z) :
  n <> 0 -> Num.strict_eq totalPrice Num.zero = false -> people <> [] ->
  calculateCosts people totalPrice n
  = map (personCost people (Num.div totalPrice (Num.of_Z n)) n) people.
Proof.
  intros Hn Hp Hr. unfold calculateCosts.
  apply Z.eqb_neq in Hn. rewrite Hn, Hp. simpl.
  destruct people as [|p ps]; [done|].
  by rewrite foldl_snoc_map.
Qed.

(** Behind one of the guards there is no record. *)
Lemma calculateCosts_guarded (people : list Person) (totalPrice : number)
    (n : Z) :
  (n =? 0) || Num.strict_eq totalPrice Num.zero || (length people =? 0)%nat
  = true ->
  calculateCosts people totalPrice n = [].
Proof. intros H. unfold calculateCosts. by rewrite H. Qed.

(** Somebody who stayed night [i] is counted among the people of that night. *)
Lemma peopleThisNight_pos (people : list Person) (p : Person) (i : nat) :
  p ∈ people -> stayed p i = true -> (0 < peopleThisNight people i)%nat.
Proof.
  intros Hin Hs. unfold peopleThisNight.
  assert (p ∈ filter (fun q => stayed q i) people) as Hf.
  { apply list_elem_of_filter. split; [by rewrite Hs|done]. }
  destruct (filter _ people); [by apply elem_of_nil in Hf|simpl; lia].
Qed.

Lemma nightCost_member (people : list Person) (ppn : number) (p : Person)
    (i : nat) :
  p ∈ people ->
  nightCost people ppn p i
  = if stayed p i
    then Num.div ppn (Num.of_nat (peopleThisNight people i))
    else Num.zero.
Proof.
  intros Hin. unfold nightCost, share.
  destruct (stayed p i) eqn:Hs; [|done].
  pose proof (peopleThisNight_pos people p i Hin Hs) as Hpos.
  apply Nat.ltb_lt in Hpos. by rewrite Hpos.
Qed.

Lemma share_wf (people : list Person) (ppn : number) (i : nat) :
  Num.wf (share people ppn i).
Proof.
  unfold share. destruct (_ <? _)%nat; [apply NumFacts.div_wf|done].
Qed.

(** The running [total] is the sum of what was pushed on [perNight]: adding
    the [0] of a night away changes nothing, because the running total is
    never [-0]. *)
Lemma addNight_sum (people : list Person) (ppn : number) (p : Person)
    (ixs : list nat) (t : number) :
  Num.wf t -> t <> Num.neg_zero ->
  foldl (addNight people ppn p) t ixs
  = foldl Num.add t (map (nightCost people ppn p) ixs).
Proof.
  revert t. induction ixs as [|i ixs IH]; intros t Hwf Hnz; [done|].
  cbn [foldl map].
  replace (addNight people ppn p t i)
    with (if stayed p i then Num.add t (share people ppn i) else t)
    by reflexivity.
  replace (nightCost people ppn p i)
    with (if stayed p i then share people ppn i else Num.zero)
    by reflexivity.
  destruct (stayed p i).
  - apply IH.
    + apply NumFacts.add_wf; [done|apply share_wf].
    + intros Heq. apply Hnz.
      by apply (NumFacts.add_neg_zero t (share people ppn i));
        [|apply share_wf|].
  - rewrite NumFacts.add_zero_r by done. by apply IH.
Qed.

Lemma personCost_total_sum (people : list Person) (ppn : number) (n : Z)
    (p : Person) :
  total (personCost people ppn n p)
  = Num.sum (perNight (personCost people ppn n p)).
Proof.
  rewrite total_personCost, perNight_personCost. unfold Num.sum.
  by apply addNight_sum.
Qed.

Lemma nightCost_absent (people : list Person) (ppn : number) (p : Person)
    (i : nat) :
  stayed p i = false -> nightCost people ppn p i = Num.zero.
Proof. intros H. unfold nightCost. by rewrite H. Qed.

Lemma stayed_past_end (p : Person) (i : nat) :
  (length (nights p) <= i)%nat -> stayed p i = false.
Proof.
  intros H. unfold stayed. by rewrite (lookup_ge_None_2 (nights p) i H).
Qed.

(** *** Properties of [calculateCosts] *)

(** The flag test of the code, [person.nights[i]], holds exactly when the
    array has [true] at index [i]. *)
Lemma stayed_flag (p : Person) (i : nat) :
  stayed p i = bool_decide (nights p !! i = Some true).
Proof.
  unfold stayed. destruct (nights p !! i) as [[|]|]; by cbn.
Qed.

(** The count of the code, [people.filter((p) => p.nights[i]).length], is
    the number of people of the roster with [true] at index [i]. *)
Lemma peopleThisNight_flagged (people : list Person) (i : nat) :
  peopleThisNight people i
  = length (filter (fun q => nights q !! i = Some true) people).
Proof.
  unfold peopleThisNight. induction people as [|p l IH]; [done|].
  destruct (decide (nights p !! i = Some true)) as [Hp|Hp].
  - rewrite (filter_cons_True (fun q => nights q !! i = Some true)) by done.
    rewrite filter_cons_True
      by (rewrite stayed_flag; by apply bool_decide_pack).
    cbn [length]. by rewrite IH.
  - rewrite (filter_cons_False (fun q => nights q !! i = Some true)) by done.
    rewrite filter_cons_False; [done|].
    rewrite stayed_flag. intros H. by apply bool_decide_unpack in H.
Qed.

(** C1. With [nights <> 0], [totalPrice !== 0] and a roster that is not
    empty, [calculateCosts] returns one record per person, in roster order:
    the record at position [k] carries the id of the person at position [k]
    and, for every night [i] below the night count, the cost
    [(totalPrice / nights) / c] when the array of the person has [true] at
    [i], [c] being the number of people of the whole roster whose arrays have
    [true] at [i], and [0] when the flag is [false] or missing.  Negative
    prices go through like any other. *)
Theorem calculateCosts_per_person (people : list Person) (totalPrice : number)
    (n : Z) :
  n <> 0 -> Num.strict_eq totalPrice Num.zero = false -> people <> [] ->
  length (calculateCosts people totalPrice n) = length people /\
  forall (k : nat) (p : Person), people !! k = Some p ->
    exists c : PersonCost,
      calculateCosts people totalPrice n !! k = Some c /\
      personId c = id p /\
      forall i : nat, (i < Z.to_nat n)%nat ->
        perNight c !! i
        = Some (if bool_decide (nights p !! i = Some true)
                then Num.div (Num.div totalPrice (Num.of_Z n))
                       (Num.of_nat
                          (length (filter (fun q => nights q !! i = Some true)
                                          people)))
                else Num.zero).
Proof.
  intros Hn Hp Hr. rewrite calculateCosts_eq by done.
  split; [by rewrite length_map|].
  intros k p Hk. eexists. split; [by rewrite list_lookup_fmap, Hk|].
  split; [apply personId_personCost|].
  intros i Hi. rewrite perNight_personCost, list_lookup_fmap.
  rewrite lookup_seq_lt by done. simpl. f_equal.
  rewrite <- stayed_flag, <- peopleThisNight_flagged.
  apply nightCost_member. by eapply list_elem_of_lookup_2.
Qed.

Lemma calculateCosts_per_person_witness :
  let people := [guest "1" [true; false]; guest "2" [true];
                 guest "3" [false; true]] in
  let price := Num.of_Z (-300) in
  exists c1 c2 c3 : PersonCost,
    calculateCosts people price 2 = [c1; c2; c3] /\
    personId c1 = "1"%string /\
    perNight c1 = [Num.of_Z (-75); Num.zero] /\
    personId c2 = "2"%string /\
    perNight c2 = [Num.of_Z (-75); Num.zero] /\
    personId c3 = "3"%string /\
    perNight c3 = [Num.zero; Num.of_Z (-150)].
Proof.
  intros people price.
  destruct (calculateCosts_per_person people price 2) as [Hlen Hrec];
    [lia | reflexivity | discriminate |].
  destruct (Hrec 0%nat (guest "1" [true; false]) eq_refl)
    as (c1 & Hc1 & Hid1 & Hn1).
  destruct (Hrec 1%nat (guest "2" [true]) eq_refl)
    as (c2 & Hc2 & Hid2 & Hn2).
  destruct (Hrec 2%nat (guest "3" [false; true]) eq_refl)
    as (c3 & Hc3 & Hid3 & Hn3).
  assert (forall c : PersonCost, length (perNight c) = 2%nat ->
            forall x y, perNight c !! 0%nat = Some x ->
                        perNight c !! 1%nat = Some y ->
                        perNight c = [x; y]) as Htwo.
  { intros c Hl x y Hx Hy.
    destruct (perNight c) as [|a [|b [|? ?]]]; try discriminate.
    cbn in Hx, Hy. congruence. }
  exists c1, c2, c3.
  destruct (calculateCosts people price 2) as [|a [|b [|d [|? ?]]]] eqn:Hcosts;
    try discriminate Hlen.
  cbn in Hc1, Hc2, Hc3. injection Hc1 as ->. injection Hc2 as ->.
  injection Hc3 as ->.
  assert (Forall (fun c => length (perNight c) = 2%nat) [c1; c2; c3]) as Hl.
  { rewrite <- Hcosts. vm_compute. repeat constructor. }
  inversion Hl as [|? ? Hl1 Hl']; subst.
  inversion Hl' as [|? ? Hl2 Hl'']; subst.
  inversion Hl'' as [|? ? Hl3 _]; subst.
  split; [reflexivity|].
  split; [exact Hid1|]. split.
  { apply Htwo; [done|apply (Hn1 0%nat); cbn; lia|apply (Hn1 1%nat); cbn; lia]. }
  split; [exact Hid2|]. split.
  { apply Htwo; [done|apply (Hn2 0%nat); cbn; lia|apply (Hn2 1%nat); cbn; lia]. }
  split; [exact Hid3|].
  apply Htwo; [done|apply (Hn3 0%nat); cbn; lia|apply (Hn3 1%nat); cbn; lia].
Defined.

(** C4. [calculateCosts] returns the empty array, and no record at all, as
    soon as the night count is [0], or the total price is [0] (either zero of
    the number type), or the roster is empty. *)
Theorem calculateCosts_empty (people : list Person) (totalPrice : number)
    (n : Z) :
  n = 0 \/ Num.strict_eq totalPrice Num.zero = true \/ people = [] ->
  calculateCosts people totalPrice n = [].
Proof.
  unfold calculateCosts. intros [-> | [-> | ->]].
  - reflexivity.
  - by rewrite orb_true_r.
  - by rewrite orb_true_r.
Qed.

Lemma calculateCosts_empty_witness :
  calculateCosts [guest "1" []] (Num.of_Z 100) 0 = [] /\
  calculateCosts [guest "1" [true]] Num.zero 1 = [] /\
  calculateCosts [guest "1" [true]] Num.neg_zero 1 = [] /\
  calculateCosts [] (Num.of_Z 100) 2 = [].
Proof.
  split; [|split; [|split]]; apply calculateCosts_empty.
  - left. reflexivity.
  - right. left. reflexivity.
  - right. left. reflexivity.
  - right. right. reflexivity.
Defined.



(** C9. [calculateCosts] is a total function, also when a person's [nights]
    array is shorter than the night count: every record it returns has a
    [perNight] array of exactly [nights] entries, and for the person at
    position [k] there is a record whose entry is [0] at every index past the
    end of the person's array, where the flag reads [undefined]. *)
Theorem calculateCosts_short_attendance (people : list Person)
    (totalPrice : number) (n : Z) :
  Forall (fun c => length (perNight c) = Z.to_nat n)
         (calculateCosts people totalPrice n) /\
  (n <> 0 -> Num.strict_eq totalPrice Num.zero = false ->
   forall (k : nat) (p : Person), people !! k = Some p ->
     exists c : PersonCost,
       calculateCosts people totalPrice n !! k = Some c /\
       forall i : nat, (length (nights p) <= i)%nat -> (i < Z.to_nat n)%nat ->
         perNight c !! i = Some Num.zero).
Proof.
  split.
  - destruct (Z.eq_dec n 0) as [->|Hn];
      [by rewrite calculateCosts_guarded|].
    destruct (Num.strict_eq totalPrice Num.zero) eqn:Hp;
      [by rewrite calculateCosts_guarded
         by (rewrite Hp, orb_true_r; reflexivity)|].
    destruct (decide (people = [])) as [->|Hr];
      [by rewrite calculateCosts_guarded by apply orb_true_r|].
    rewrite calculateCosts_eq by done. apply Forall_fmap, Forall_forall.
    intros p _. simpl. by rewrite perNight_personCost, length_map, length_seq.
  - intros Hn Hp k p Hk.
    assert (people <> []) as Hr by (intros ->; done).
    rewrite calculateCosts_eq by done.
    eexists. split; [by rewrite list_lookup_fmap, Hk|].
    intros i Hlen Hi.
    rewrite perNight_personCost, list_lookup_fmap, lookup_seq_lt by done.
    simpl. f_equal. apply nightCost_absent. by apply stayed_past_end.
Qed.

Lemma calculateCosts_short_attendance_witness :
  let people := [guest "1" [true]; guest "2" [true; true; true]] in
  exists c : PersonCost,
    calculateCosts people (Num.of_Z 300) 3 !! 0%nat = Some c /\
    length (perNight c) = 3%nat /\
    perNight c !! 1%nat = Some Num.zero /\
    perNight c !! 2%nat = Some Num.zero.
Proof.
  intros people.
  destruct (calculateCosts_short_attendance people (Num.of_Z 300) 3)
    as [Hlen Hshort].
  destruct (Hshort ltac:(lia) eq_refl 0%nat (guest "1" [true]) eq_refl)
    as (c & Hc & Hz).
  exists c. split; [exact Hc|].
  split; [|split; apply Hz; simpl; lia].
  rewrite Forall_forall in Hlen. apply Hlen.
  by eapply list_elem_of_lookup_2.
Defined.

(** *** A single guest, and what a night adds up to *)

Lemma PersonCost_eta (c : PersonCost) :
  c = {| personId := personId c; perNight := perNight c; total := total c |}.
Proof. by destruct c. Qed.

Lemma peopleThisNight_single (p : Person) (i : nat) :
  stayed p i = true -> peopleThisNight [p] i = 1%nat.
Proof.
  intros Hs. unfold peopleThisNight.
  rewrite filter_cons_True by (by rewrite Hs). by rewrite filter_nil.
Qed.

(** Summing a column of costs of one night: the people away add [0], those
    present add the share of the night. *)
Lemma foldl_add_nightCost (people : list Person) (ppn : number) (i : nat)
    (l : list Person) (t : number) :
  Num.wf t -> t <> Num.neg_zero ->
  foldl Num.add t (map (fun p => nightCost people ppn p i) l)
  = foldl Num.add t
      (replicate (length (filter (fun p => stayed p i) l))
                 (share people ppn i)).
Proof.
  revert t. induction l as [|p l IH]; intros t Hwf Hnz; [done|].
  cbn [map foldl]. unfold nightCost at 1.
  destruct (stayed p i) eqn:Hs.
  - rewrite filter_cons_True by (by rewrite Hs). cbn [length replicate foldl].
    apply IH.
    + apply NumFacts.add_wf; [done|apply share_wf].
    + intros Heq. apply Hnz.
      by apply (NumFacts.add_neg_zero t (share people ppn i));
        [|apply share_wf|].
  - rewrite filter_cons_False by (rewrite Hs; simpl; tauto).
    rewrite NumFacts.add_zero_r by done. by apply IH.
Qed.

Lemma nightColumn_map (people : list Person) (ppn : number) (n : Z) (i : nat)
    (l : list Person) :
  (i < Z.to_nat n)%nat ->
  nightColumn (map (personCost people ppn n) l) i
  = map (fun p => nightCost people ppn p i) l.
Proof.
  intros Hi. unfold nightColumn. induction l as [|p l IH]; [done|].
  cbn -[personCost]. rewrite perNight_personCost, list_lookup_fmap.
  rewrite lookup_seq_lt by done. cbn -[personCost]. by rewrite <- IH.
Qed.

(** C7, as the code has it.  For a roster of one person flagged on every
    night, with [nights <> 0] and [totalPrice !== 0], every [perNight] entry
    is [totalPrice / nights], and [total] is the binary64 sum of these
    entries, added one after the other from [0]: the full price up to
    rounding, not always the full price itself. *)
Theorem calculateCosts_single_guest (p : Person) (totalPrice : number)
    (n : Z) :
  n <> 0 -> Num.strict_eq totalPrice Num.zero = false ->
  (forall i : nat, (i < Z.to_nat n)%nat -> stayed p i = true) ->
  calculateCosts [p] totalPrice n
  = [ {| personId := id p;
         perNight := replicate (Z.to_nat n) (Num.div totalPrice (Num.of_Z n));
         total := Num.sum (replicate (Z.to_nat n)
                                     (Num.div totalPrice (Num.of_Z n))) |} ].
Proof.
  intros Hn Hp Hall. rewrite calculateCosts_eq by done. cbn [map].
  set (ppn := Num.div totalPrice (Num.of_Z n)).
  assert (perNight (personCost [p] ppn n p) = replicate (Z.to_nat n) ppn)
    as Hpn.
  { rewrite perNight_personCost. apply eq_sym, replicate_as_Forall_2.
    - by rewrite length_map, length_seq.
    - apply Forall_fmap, Forall_seq. intros i Hi. simpl.
      assert (stayed p i = true) as Hs by (apply Hall; lia).
      unfold nightCost, share. rewrite Hs, peopleThisNight_single by done.
      simpl. unfold ppn. by rewrite NumFacts.div_div_one. }
  rewrite (PersonCost_eta (personCost [p] ppn n p)).
  by rewrite personCost_total_sum, Hpn, personId_personCost.
Qed.

(** The example of the specification: 200 over 2 nights is [100, 100] and a
    total of 200. *)
Lemma calculateCosts_single_guest_witness :
  calculateCosts [guest "1" [true; true]] (Num.of_Z 200) 2
  = [ {| personId := "1";
         perNight := [Num.of_Z 100; Num.of_Z 100];
         total := Num.of_Z 200 |} ].
Proof.
  rewrite (calculateCosts_single_guest (guest "1" [true; true])
             (Num.of_Z 200) 2); [vm_compute; reflexivity | lia | reflexivity |].
  intros [|[|i]] Hi; [reflexivity | reflexivity | simpl in Hi; lia].
Defined.

(** C7, the total is not always the price: one guest, ten nights, a price
    of 1.  Each night costs 7205759403792794 * 2^-56, the binary64 number
    next to 0.1, and the ten of them add up to 9007199254740991 * 2^-53 =
    0.9999999999999999, not to 1.  Ten times the nightly cost is not 1 in
    exact arithmetic either: 10 * 7205759403792794 is not 2^56. *)
Lemma single_guest_total_not_price :
  exists c : PersonCost,
    calculateCosts [guest "1" (replicate 10 true)] (Num.of_Z 1) 10 = [c] /\
    perNight c = replicate 10 (S754_finite false 7205759403792794 (-56)) /\
    total c = S754_finite false 9007199254740991 (-53) /\
    Num.of_Z 1 = S754_finite false 4503599627370496 (-52) /\
    Num.strict_eq (total c) (Num.of_Z 1) = false /\
    10 * 7205759403792794 <> 2 ^ 56.
Proof.
  eexists. split; [vm_compute; reflexivity|].
  split; [vm_compute; reflexivity|]. split; [reflexivity|].
  split; [vm_compute; reflexivity|].
  split; [vm_compute; reflexivity|]. vm_compute. discriminate.
Qed.

(** C10, as the code has it.  With [nights <> 0] and [totalPrice !== 0], the
    costs of night [i] are the share [(totalPrice / nights) / k] for each of
    the [k] people present and [0] for the others, so that their sum, taken
    in roster order, is the binary64 sum of [k] shares: [0] when nobody is
    present, [totalPrice / nights] itself when one person is (unless that
    is [-0], which sums to [0]), and [totalPrice / nights] up to rounding
    otherwise. *)
Theorem calculateCosts_night_column (people : list Person)
    (totalPrice : number) (n : Z) (i : nat) :
  n <> 0 -> Num.strict_eq totalPrice Num.zero = false ->
  (i < Z.to_nat n)%nat ->
  let k := peopleThisNight people i in
  let pricePerNight := Num.div totalPrice (Num.of_Z n) in
  let column := nightColumn (calculateCosts people totalPrice n) i in
  column = map (fun p => if stayed p i
                         then Num.div pricePerNight (Num.of_nat k)
                         else Num.zero) people /\
  Num.sum column
  = Num.sum (replicate k (Num.div pricePerNight (Num.of_nat k))) /\
  (k = 0%nat -> Num.sum column = Num.zero) /\
  (k = 1%nat -> pricePerNight <> Num.neg_zero ->
   Num.sum column = pricePerNight).
Proof.
  intros Hn Hp Hi k ppn column.
  assert (column = map (fun p => nightCost people ppn p i) people) as Hcol.
  { unfold column. destruct (decide (people = [])) as [->|Hne].
    - by rewrite calculateCosts_guarded by apply orb_true_r.
    - rewrite calculateCosts_eq by done. by apply nightColumn_map. }
  assert (Num.sum column
          = Num.sum (replicate k (Num.div ppn (Num.of_nat k)))) as Hsum.
  { rewrite Hcol. unfold Num.sum.
    rewrite foldl_add_nightCost by done. fold (peopleThisNight people i).
    fold k. unfold share. fold k.
    destruct k as [|k']; [done|]. done. }
  split; [|split; [done|split]].
  - rewrite Hcol. apply list_eq. intros j. rewrite !list_lookup_fmap.
    destruct (people !! j) as [p|] eqn:Hj; [|done]. simpl. f_equal.
    apply nightCost_member. by eapply list_elem_of_lookup_2.
  - intros Hk. by rewrite Hsum, Hk.
  - intros Hk Hnz. rewrite Hsum, Hk. unfold Num.sum. cbn [replicate foldl].
    unfold ppn in *. rewrite NumFacts.div_div_one.
    destruct (Num.div totalPrice (Num.of_Z n)) as [[]| | |]; done.
Qed.

Lemma calculateCosts_night_column_witness :
  let people := [guest "1" [true; true]; guest "2" [true; false]] in
  let column := nightColumn (calculateCosts people (Num.of_Z 200) 2) 1 in
  column = [Num.of_Z 100; Num.zero] /\ Num.sum column = Num.of_Z 100.
Proof.
  intros people column.
  destruct (calculateCosts_night_column people (Num.of_Z 200) 2 1)
    as (Hcol & _ & _ & Hone); [lia | reflexivity | simpl; lia |].
  split; [exact Hcol | apply Hone; [reflexivity | discriminate]].
Defined.

(** C10, a night does not always add up to its price: three guests on the
    first of three nights, for a price of 11.  The night is worth
    8256599316845909 * 2^-51 = 3.6666666666666665, each share is
    5504399544563939 * 2^-52 = 1.222222222222222, and the three shares add
    up to 8256599316845908 * 2^-51 = 3.666666666666666; so do the three
    totals, for one occupied night.  Three shares are not the price of the
    night in exact arithmetic either.  And the total of one guest who stays
    all of ten nights for a price of 1 is not that price. *)
Lemma night_column_sum_not_nightly_price :
  let people := [guest "1" [true]; guest "2" [true]; guest "3" [true]] in
  let costs := calculateCosts people (Num.of_Z 11) 3 in
  let column := nightColumn costs 0 in
  let pricePerNight := Num.div (Num.of_Z 11) (Num.of_Z 3) in
  (exists p, p ∈ people /\ stayed p 0 = true) /\
  column = replicate 3 (S754_finite false 5504399544563939 (-52)) /\
  Num.sum column = S754_finite false 8256599316845908 (-51) /\
  pricePerNight = S754_finite false 8256599316845909 (-51) /\
  Num.strict_eq (Num.sum column) pricePerNight = false /\
  3 * 5504399544563939 <> 2 * 8256599316845909 /\
  Num.strict_eq (Num.sum (map total costs)) pricePerNight = false /\
  Num.strict_eq
    (Num.sum (map total (calculateCosts [guest "1" (replicate 10 true)]
                                        (Num.of_Z 1) 10)))
    (Num.of_Z 1) = false.
Proof.
  intros people costs column pricePerNight. split.
  - exists (guest "1" [true]). split; [apply list_elem_of_here|reflexivity].
  - split; [vm_compute; reflexivity|]. split; [vm_compute; reflexivity|].
    split; [vm_compute; reflexivity|]. split; [vm_compute; reflexivity|].
    split; [lia|]. split; vm_compute; reflexivity.
Qed.
(** ** Properties of [calculateNights] *)



Lemma fixedZone_small (c : Z) :
  Z.abs c < ES.msPerDay -> forall t b, Z.abs (fixedZone c t b) < ES.msPerDay.
Proof. done. Qed.

Lemma newYork2024_small (t : Z) (b : bool) :
  Z.abs (newYork2024 t b) < ES.msPerDay.
Proof.
  unfold newYork2024, ES.msPerDay, ES.msPerHour.
  destruct b; repeat case_match; lia.
Qed.





(** A string that the host does not read as a date gives [NaN], not [0]:
    the comparison [checkOutDate <= checkInDate] is false on an invalid date,
    and the difference of the time values is [NaN]. *)
Remark calculateNights_invalid_date (LocalTZA : Z -> bool -> Z)
    (hostParse : string -> option Z) (checkIn checkOut : string) :
  isEmpty checkIn = false -> isEmpty checkOut = false ->
  newDate LocalTZA hostParse (checkIn ++ "T00:00:00")%string = None
  \/ newDate LocalTZA hostParse (checkOut ++ "T00:00:00")%string = None ->
  calculateNights LocalTZA hostParse checkIn checkOut = None.
Proof.
  intros Hi Ho H. unfold calculateNights. rewrite Hi, Ho. cbn [orb].
  destruct H as [-> | ->].
  - by destruct (newDate _ _ (checkOut ++ _)%string).
  - done.
Qed.

Remark calculateNights_invalid_date_example :
  calculateNights utcZone strictParse "abc" "2024-01-16" = None.
Proof. reflexivity. Qed.

(** When local time has the same offset from UTC at the two midnights, the
    nights between two dates of the calendar, the second after the first,
    are the days between them. *)
Theorem calculateNights_same_offset (LocalTZA : Z -> bool -> Z)
    (hostParse : string -> option Z) (y1 m1 d1 y2 m2 d2 : Z) :
  (forall t b, Z.abs (LocalTZA t b) < ES.msPerDay) ->
  ES.validDate y1 m1 d1 -> ES.validDate y2 m2 d2 ->
  ES.dateLt y1 m1 d1 y2 m2 d2 ->
  LocalTZA (ES.dayNumber y1 m1 d1 * ES.msPerDay) false
  = LocalTZA (ES.dayNumber y2 m2 d2 * ES.msPerDay) false ->
  calculateNights LocalTZA hostParse
                  (ES.isoDate y1 m1 d1) (ES.isoDate y2 m2 d2)
  = Some (ES.dayNumber y2 m2 d2 - ES.dayNumber y1 m1 d1)
  /\ 0 < ES.dayNumber y2 m2 d2 - ES.dayNumber y1 m1 d1.
Proof.
  intros Hsmall Hv1 Hv2 Hlt Hoff.
  pose proof (DateFacts.dayNumber_lt _ _ _ _ _ _ Hv1 Hv2 Hlt) as Hd.
  split; [|lia]. unfold calculateNights.
  rewrite !DateFacts.isEmpty_isoDate. cbn [orb].
  rewrite !DateFacts.newDate_isoDate by done.
  cbn [dateLe]. unfold ES.UTC. rewrite Hoff. unfold ES.msPerDay.
  replace (_ <=? _) with false by lia.
  f_equal. Z.div_mod_to_equations. lia.
Qed.

(** So it is in every zone at a constant offset from UTC. *)
Corollary calculateNights_fixed_zone (c : Z) (hostParse : string -> option Z)
    (y1 m1 d1 y2 m2 d2 : Z) :
  Z.abs c < ES.msPerDay ->
  ES.validDate y1 m1 d1 -> ES.validDate y2 m2 d2 ->
  ES.dateLt y1 m1 d1 y2 m2 d2 ->
  calculateNights (fixedZone c) hostParse
                  (ES.isoDate y1 m1 d1) (ES.isoDate y2 m2 d2)
  = Some (ES.dayNumber y2 m2 d2 - ES.dayNumber y1 m1 d1)
  /\ 0 < ES.dayNumber y2 m2 d2 - ES.dayNumber y1 m1 d1.
Proof.
  intros Hc Hv1 Hv2 Hlt.
  by apply calculateNights_same_offset; [apply fixedZone_small| | | |].
Qed.

Lemma calculateNights_fixed_zone_examples (c : Z)
    (hostParse : string -> option Z) :
  Z.abs c < ES.msPerDay ->
  calculateNights (fixedZone c) hostParse "2024-01-31" "2024-02-03" = Some 3 /\
  calculateNights (fixedZone c) hostParse "2023-12-30" "2024-01-02" = Some 3.
Proof.
  intros Hc. split.
  - apply (calculateNights_fixed_zone c hostParse 2024 1 31 2024 2 3);
      unfold ES.validDate, ES.dateLt; simpl; lia.
  - apply (calculateNights_fixed_zone c hostParse 2023 12 30 2024 1 2);
      unfold ES.validDate, ES.dateLt; simpl; lia.
Qed.

(** C2, a night is lost where clocks are put forward.  In New York the night from 10 to
    11 March 2024 lasts 23 hours, and [Math.floor] of 23/24 of a day is [0]:
    one night is counted as none, and the two nights from 9 to 11 March as
    one. *)
Theorem calculateNights_loses_spring_night (hostParse : string -> option Z) :
  calculateNights newYork2024 hostParse "2024-03-10" "2024-03-11" = Some 0 /\
  ES.dayNumber 2024 3 11 - ES.dayNumber 2024 3 10 = 1 /\
  calculateNights newYork2024 hostParse "2024-03-09" "2024-03-11" = Some 1 /\
  ES.dayNumber 2024 3 11 - ES.dayNumber 2024 3 9 = 2.
Proof. repeat split; vm_compute; reflexivity. Qed.

(** ** Properties of [getNightDates] *)

(** The calendar fields depend on the day of a time value only. *)
Lemma fields_of_day (a b : Z) :
  ES.Day a = ES.Day b ->
  ES.YearFromTime a = ES.YearFromTime b /\
  ES.MonthFromTime a = ES.MonthFromTime b /\
  ES.DateFromTime a = ES.DateFromTime b.
Proof.
  intros H.
  assert (ES.YearFromTime a = ES.YearFromTime b) as Hy
    by (unfold ES.YearFromTime; by rewrite H).
  assert (ES.InLeapYear a = ES.InLeapYear b) as Hl
    by (unfold ES.InLeapYear; by rewrite Hy).
  assert (ES.DayWithinYear a = ES.DayWithinYear b) as Hw
    by (unfold ES.DayWithinYear; by rewrite H, Hy).
  assert (ES.MonthFromTime a = ES.MonthFromTime b) as Hm
    by (unfold ES.MonthFromTime; by rewrite Hw, Hl).
  repeat split; try done.
  unfold ES.DateFromTime. by rewrite Hw, Hm, Hl.
Qed.

Lemma isoDate_of_time (n c : Z) :
  0 <= c < ES.msPerDay ->
  let t := n * ES.msPerDay + c in
  ES.isoDate (ES.YearFromTime t) (ES.MonthFromTime t + 1) (ES.DateFromTime t)
  = ES.isoDateOfDay n.
Proof.
  intros Hc t. unfold ES.isoDateOfDay.
  destruct (fields_of_day t (n * ES.msPerDay)) as (-> & -> & ->); [|done].
  unfold t. by rewrite DateFacts.Day_offset, DateFacts.Day_mul.
Qed.

(** The loop of [getNightDates], when no turn throws. *)
Lemma getNightDates_loop (label : nat -> completion string)
    (f : nat -> string) (l : list nat) (acc : list string) :
  (forall i, i ∈ l -> label i = Normal (f i)) ->
  foldl (fun acc i => dates ← acc; s ← label i; mret (dates ++ [s]))
        (Normal acc) l
  = Normal (acc ++ map f l).
Proof.
  revert acc. induction l as [|i l IH]; intros acc Hl.
  - simpl. by rewrite app_nil_r.
  - cbn [foldl map]. cbn [mbind completion_bind].
    rewrite (Hl i) by apply list_elem_of_here. cbn [mbind completion_bind mret completion_ret].
    rewrite IH; [by rewrite <- app_assoc|].
    intros j Hj. apply Hl. by apply list_elem_of_further.
Qed.

Lemma getNightDates_empty (LocalTZA : Z -> bool -> Z)
    (hostParse : string -> option Z) (checkIn : string) (n : Z) :
  checkIn = ""%string \/ n = 0 ->
  getNightDates LocalTZA hostParse checkIn n = Normal [].
Proof.
  intros [-> | ->]; unfold getNightDates; [done|]. by rewrite orb_true_r.
Qed.

(** In a zone at a constant offset at or behind UTC, less than a day behind,
    night [i] of a stay that starts on a date of the calendar is labelled
    with the date [i] days later, as long as the dates stay within the range
    of [Date]; the first label is the check-in date itself. *)
Theorem getNightDates_west_of_utc (c : Z) (hostParse : string -> option Z)
    (y m d n : Z) :
  - ES.msPerDay < c <= 0 ->
  ES.validDate y m d ->
  ES.dayNumber y m d + n <= 100000000 ->
  getNightDates (fixedZone c) hostParse (ES.isoDate y m d) n
  = Normal (map (fun i => ES.isoDateOfDay (ES.dayNumber y m d + Z.of_nat i))
                (seq 0 (Z.to_nat n)))
  /\ ES.isoDateOfDay (ES.dayNumber y m d) = ES.isoDate y m d.
Proof.
  intros Hc Hv Hn.
  pose proof (DateFacts.dayNumber_range y m d Hv) as Hr.
  set (D := ES.dayNumber y m d) in *.
  split.
  - unfold getNightDates. rewrite DateFacts.isEmpty_isoDate. cbn [orb].
    destruct (Z.eqb_spec n 0) as [->|Hn0]; [done|].
    rewrite DateFacts.newDate_isoDate
      by (done || apply fixedZone_small; unfold ES.msPerDay in *; lia).
    fold D.
    rewrite (getNightDates_loop _
               (fun i => ES.isoDateOfDay (D + Z.of_nat i))); [done|].
    intros i Hi. apply elem_of_seq in Hi.
    unfold nightLabel, ES.setDate, ES.getDate, ES.LocalTime, ES.UTC, fixedZone.
    replace (D * ES.msPerDay - c + c) with (D * ES.msPerDay) by lia.
    rewrite DateFacts.MakeDay_fields, DateFacts.Day_mul.
    unfold ES.TimeWithinDay, ES.MakeDate.
    replace (D * ES.msPerDay mod ES.msPerDay) with 0
      by (by rewrite Z.mod_mul).
    unfold ES.TimeClip. replace (_ <=? _) with true
      by (unfold ES.msPerDay in *; lia).
    rewrite DateFacts.beforeFirst_toISOString. f_equal.
    replace ((D + Z.of_nat i) * ES.msPerDay + 0 - c)
      with ((D + Z.of_nat i) * ES.msPerDay + (- c)) by lia.
    apply isoDate_of_time. lia.
  - destruct Hv as (Hy & Hm & Hd). unfold ES.isoDateOfDay.
    destruct (DateFacts.civil_dayNumber y m d 0 Hm Hd) as (Hy' & Hm' & Hd');
      [unfold ES.msPerDay; lia|].
    rewrite Z.add_0_r in Hy', Hm', Hd'. fold D in Hy', Hm', Hd'.
    rewrite Hy', Hm', Hd'. f_equal. lia.
Qed.

Lemma getNightDates_west_of_utc_examples (hostParse : string -> option Z) :
  getNightDates utcZone hostParse "2023-12-31" 3
  = Normal ["2023-12-31"; "2024-01-01"; "2024-01-02"]%string /\
  getNightDates (fixedZone (-8 * ES.msPerHour)) hostParse "2024-01-31" 3
  = Normal ["2024-01-31"; "2024-02-01"; "2024-02-02"]%string.
Proof.
  split.
  - destruct (getNightDates_west_of_utc 0 hostParse 2023 12 31 3) as [H _];
      [unfold ES.msPerDay; lia | unfold ES.validDate; simpl; lia
      | vm_compute; discriminate |].
    exact H.
  - destruct (getNightDates_west_of_utc (-8 * ES.msPerHour) hostParse
                2024 1 31 3) as [H _];
      [unfold ES.msPerDay, ES.msPerHour; lia | unfold ES.validDate; simpl; lia
      | vm_compute; discriminate |].
    exact H.
Qed.

(** C3, the labels are a day early east of Greenwich.  In Tokyo, local midnight of 15 January is
    15:00 of 14 January in UTC, the zone [toISOString] writes in: every
    label is the date of the day before. *)
Theorem getNightDates_east_of_utc (hostParse : string -> option Z) :
  getNightDates tokyo hostParse "2024-01-15" 3
  = Normal ["2024-01-14"; "2024-01-15"; "2024-01-16"]%string /\
  getNightDates tokyo hostParse "2023-12-31" 1 = Normal ["2023-12-30"%string].
Proof. split; vm_compute; reflexivity. Qed.

(** ** [calculateCosts] on the heap computes the same records *)

Module HeapFacts.
Import Heap.

Lemma bind_run {A B : Type} (m : M A) (k : A -> M B) (h h' : heap) (a : A) :
  m h = Some (a, h') -> (x ← m; k x) h = k a h'.
Proof. intros H. unfold mbind, M_bind. by rewrite H. Qed.

Lemma lookup_middle_offset (hs : heap) (o : obj) (k : heap) (j : nat) :
  (hs ++ o :: k) !! (S (length hs) + j)%nat = k !! j.
Proof.
  rewrite lookup_app_r by lia.
  replace (S (length hs) + j - length hs)%nat with (S j) by lia. done.
Qed.

Lemma insert_middle (hs : heap) (o o' : obj) (k : heap) :
  <[length hs := o']> (hs ++ o :: k) = hs ++ o' :: k.
Proof.
  rewrite insert_app_r_alt by lia. by rewrite Nat.sub_diag.
Qed.

Section Roster.

(** The heap the call starts from, with the roster at [people]. *)
Variable h0 : heap.
Variable people : loc.
Variable refs : list loc.
Variable roster : list Person.
Hypothesis people_refs : h0 !! people = Some (RefArray refs).
Hypothesis refs_roster :
  Forall2 (fun l p => personAt h0 l = Some p) refs roster.

Lemma load_old (h : heap) (l : loc) (o : obj) :
  h0 `prefix_of` h -> h0 !! l = Some o -> load l h = Some (o, h).
Proof.
  intros Hp Hl. unfold load. by rewrite (prefix_lookup_Some _ _ _ _ Hl Hp).
Qed.

Lemma readFlag_old (h : heap) (l : loc) (p : Person) (i : nat) :
  h0 `prefix_of` h -> personAt h0 l = Some p ->
  readFlag l i h = Some (stayed p i, h).
Proof.
  intros Hp Hl. unfold personAt in Hl.
  destruct (h0 !! l) as [[pid nm ns| | | |]|] eqn:El; try done.
  destruct (h0 !! ns) as [[| |flags| |]|] eqn:En; try done.
  injection Hl as <-. unfold readFlag.
  rewrite (bind_run _ _ _ _ _ (load_old h l _ Hp El)).
  rewrite (bind_run _ _ _ _ _ (load_old h ns _ Hp En)).
  reflexivity.
Qed.

Lemma loadRefs_old (h : heap) :
  h0 `prefix_of` h -> loadRefs people h = Some (refs, h).
Proof.
  intros Hp. unfold loadRefs.
  by rewrite (bind_run _ _ _ _ _ (load_old h people _ Hp people_refs)).
Qed.

Lemma filter_fold (h : heap) (i : nat) (ls : list loc) (ps : list Person)
    (acc : list loc) :
  h0 `prefix_of` h ->
  Forall2 (fun l p => personAt h0 l = Some p) ls ps ->
  exists kept : list loc,
    foldM (fun kept p => b ← readFlag p i;
                         mret (if b : bool then kept ++ [p] else kept))
          acc ls h = Some (kept, h)
    /\ length kept
       = (length acc + length (filter (fun p => stayed p i) ps))%nat.
Proof.
  intros Hp HF. revert acc.
  induction HF as [|l p ls ps Hl HF IH]; intros acc.
  - exists acc. split; [done|]. simpl. lia.
  - cbn [foldM].
    rewrite (bind_run _ _ _ _ _
               (bind_run _ _ _ _ _ (readFlag_old h l p i Hp Hl))).
    destruct (stayed p i) eqn:Hs.
    + destruct (IH (acc ++ [l])) as (kept & Hk & Hlen).
      exists kept. split; [exact Hk|].
      rewrite filter_cons_True by (by rewrite Hs).
      rewrite Hlen, length_app. simpl. lia.
    + destruct (IH acc) as (kept & Hk & Hlen).
      exists kept. split; [exact Hk|].
      by rewrite filter_cons_False by (rewrite Hs; simpl; tauto).
Qed.

Lemma filterStayed_old (h : heap) (i : nat) :
  h0 `prefix_of` h ->
  exists kept : list loc,
    filterStayed people i h = Some (length h, h ++ [RefArray kept])
    /\ length kept = peopleThisNight roster i.
Proof.
  intros Hp. destruct (filter_fold h i refs roster [] Hp refs_roster)
    as (kept & Hk & Hlen).
  exists kept. split; [|exact Hlen].
  unfold filterStayed.
  rewrite (bind_run _ _ _ _ _ (loadRefs_old h Hp)).
  by rewrite (bind_run _ _ _ _ _ Hk).
Qed.

Lemma pushNumber_middle (hs : heap) (xs : list number) (g : heap)
    (x : number) :
  pushNumber (length hs) x (hs ++ NumberArray xs :: g)
  = Some (tt, hs ++ NumberArray (xs ++ [x]) :: g).
Proof.
  unfold pushNumber, load, store, mbind, M_bind.
  rewrite list_lookup_middle by done. cbn beta iota.
  rewrite list_lookup_middle by done. by rewrite insert_middle.
Qed.

(** One turn of the inner loop pushes the cost of the night on [perNight] and
    leaves everything before [perNight] as it was. *)
Lemma nightTurn_spec (ppn : number) (person : loc) (p : Person)
    (hs : heap) (xs : list number) (g : heap) (t : number) (i : nat) :
  h0 `prefix_of` hs -> personAt h0 person = Some p ->
  exists g' : heap,
    nightTurn people ppn person (length hs) t i (hs ++ NumberArray xs :: g)
    = Some (addNight roster ppn p t i,
            hs ++ NumberArray (xs ++ [nightCost roster ppn p i]) :: g').
Proof.
  intros Hp Hl.
  assert (h0 `prefix_of` hs ++ NumberArray xs :: g) as Hp'
    by (by apply prefix_app_r).
  unfold nightTurn, addNight, nightCost.
  rewrite (bind_run _ _ _ _ _ (readFlag_old _ person p i Hp' Hl)).
  destruct (stayed p i).
  - destruct (filterStayed_old _ i Hp') as (kept & Hf & Hlen).
    rewrite (bind_run _ _ _ _ _ Hf).
    assert (loadRefs (length (hs ++ NumberArray xs :: g))
                     ((hs ++ NumberArray xs :: g) ++ [RefArray kept])
            = Some (kept, (hs ++ NumberArray xs :: g) ++ [RefArray kept]))
      as Hk.
    { unfold loadRefs, load, mbind, M_bind.
      by rewrite list_lookup_middle by done. }
    rewrite (bind_run _ _ _ _ _ Hk), Hlen.
    rewrite <- app_assoc. cbn [app].
    exists (g ++ [RefArray kept]).
    by rewrite (bind_run _ _ _ _ _ (pushNumber_middle _ _ _ _)).
  - exists g. by rewrite (bind_run _ _ _ _ _ (pushNumber_middle _ _ _ _)).
Qed.

Lemma nightLoop_spec (ppn : number) (person : loc) (p : Person)
    (hs : heap) (ixs : list nat) (xs : list number) (g : heap) (t : number) :
  h0 `prefix_of` hs -> personAt h0 person = Some p ->
  exists g' : heap,
    foldM (nightTurn people ppn person (length hs)) t ixs
          (hs ++ NumberArray xs :: g)
    = Some (foldl (addNight roster ppn p) t ixs,
            hs ++ NumberArray (xs ++ map (nightCost roster ppn p) ixs) :: g').
Proof.
  intros Hp Hl. revert xs g t.
  induction ixs as [|i ixs IH]; intros xs g t.
  - exists g. simpl. by rewrite app_nil_r.
  - destruct (nightTurn_spec ppn person p hs xs g t i Hp Hl) as (g1 & H1).
    destruct (IH (xs ++ [nightCost roster ppn p i]) g1
                 (addNight roster ppn p t i)) as (g2 & H2).
    exists g2. cbn [foldM foldl map].
    rewrite (bind_run _ _ _ _ _ H1), H2. by rewrite <- app_assoc.
Qed.

Lemma personAt_obj (h : heap) (l : loc) (p : Person) :
  personAt h l = Some p ->
  exists ns, h !! l = Some (PersonObj (id p) (name p) ns).
Proof.
  unfold personAt. intros H.
  destruct (h !! l) as [[pid nm ns| | | |]|]; try done.
  destruct (h !! ns) as [[| |flags| |]|]; try done.
  injection H as <-. by exists ns.
Qed.

Lemma recorded_prefix (base : nat) (k k' : heap) (c : loc) (pc : PersonCost) :
  k `prefix_of` k' -> recorded base k c pc -> recorded base k' c pc.
Proof.
  intros Hp (j & jn & -> & Hj & Hn). exists j, jn.
  split; [done|]. split; by eapply prefix_lookup_Some.
Qed.

(** One turn of the outer loop allocates behind what is there, and writes to
    the array of costs only. *)
Lemma personTurn_spec (ppn : number) (n : Z) (person : loc) (p : Person)
    (cs : list loc) (k : heap) :
  personAt h0 person = Some p ->
  exists (k' : heap) (c : loc),
    personTurn people ppn n (length h0) person (h0 ++ RefArray cs :: k)
    = Some (tt, h0 ++ RefArray (cs ++ [c]) :: k')
    /\ k `prefix_of` k'
    /\ recorded (S (length h0)) k' c (personCost roster ppn n p).
Proof.
  intros Hl. set (hs := h0 ++ RefArray cs :: k).
  assert (h0 `prefix_of` hs) as Hp by (by apply prefix_app_r).
  destruct (nightLoop_spec ppn person p hs (seq 0 (Z.to_nat n)) [] []
              Num.zero Hp Hl) as (g & Hloop).
  destruct (personAt_obj h0 person p Hl) as (ns & Hobj).
  exists (k ++ NumberArray (perNight (personCost roster ppn n p))
              :: g ++ [PersonCostObj (id p) (length hs)
                                     (total (personCost roster ppn n p))]).
  exists (length hs + S (length g))%nat.
  split; [|split].
  - unfold personTurn.
    assert (alloc (NumberArray []) hs
            = Some (length hs, hs ++ [NumberArray []])) as Ha by done.
    rewrite (bind_run _ _ _ _ _ Ha), (bind_run _ _ _ _ _ Hloop).
    cbn [app].
    assert (h0 `prefix_of`
              hs ++ NumberArray (map (nightCost roster ppn p)
                                     (seq 0 (Z.to_nat n))) :: g) as Hp'
      by (by apply prefix_app_r).
    rewrite (bind_run _ _ _ _ _ (load_old _ person _ Hp' Hobj)).
    rewrite perNight_personCost, total_personCost.
    set (pn := map (nightCost roster ppn p) (seq 0 (Z.to_nat n))).
    set (tot := foldl (addNight roster ppn p) Num.zero (seq 0 (Z.to_nat n))).
    unfold alloc, pushRef, load, store, mbind, M_bind.
    rewrite length_app. cbn [length].
    unfold hs. rewrite <- !app_assoc. cbn [app].
    rewrite list_lookup_middle by done. cbn beta iota.
    rewrite list_lookup_middle by done. rewrite insert_middle.
    reflexivity.
  - by apply prefix_app_r.
  - exists (length k + S (length g))%nat, (length k).
    split; [unfold hs; rewrite length_app; simpl; lia|].
    split.
    + rewrite lookup_app_r by lia.
      replace (length k + S (length g) - length k)%nat with (S (length g))
        by lia.
      rewrite lookup_cons_ne_0 by lia. cbn [Nat.pred].
      rewrite personId_personCost.
      rewrite list_lookup_middle by done.
      do 3 f_equal. unfold hs. rewrite length_app. simpl. lia.
    + by rewrite list_lookup_middle.
Qed.

Lemma personLoop_spec (ppn : number) (n : Z) (ls : list loc)
    (ps : list Person) (cs : list loc) (pcs : list PersonCost) (k : heap) :
  Forall2 (fun l p => personAt h0 l = Some p) ls ps ->
  Forall2 (recorded (S (length h0)) k) cs pcs ->
  exists (k' : heap) (cs' : list loc),
    foldM (fun _ person => personTurn people ppn n (length h0) person) tt ls
          (h0 ++ RefArray cs :: k)
    = Some (tt, h0 ++ RefArray cs' :: k')
    /\ Forall2 (recorded (S (length h0)) k') cs'
               (pcs ++ map (personCost roster ppn n) ps).
Proof.
  intros HF. revert cs pcs k.
  induction HF as [|l p ls ps Hl HF IH]; intros cs pcs k Hrec.
  - exists k, cs. split; [done|]. by rewrite app_nil_r.
  - destruct (personTurn_spec ppn n l p cs k Hl) as (k1 & c & Hturn & Hpre & Hc).
    destruct (IH (cs ++ [c]) (pcs ++ [personCost roster ppn n p]) k1)
      as (k2 & cs2 & Hloop & Hrec2).
    { apply Forall2_app; [|by constructor].
      eapply Forall2_impl; [exact Hrec|].
      intros c' pc'. by apply recorded_prefix. }
    exists k2, cs2. split.
    + cbn [foldM]. by rewrite (bind_run _ _ _ _ _ Hturn).
    + cbn [map]. by rewrite <- app_assoc in Hrec2.
Qed.

Lemma costAt_recorded (o : obj) (k : heap) (c : loc) (pc : PersonCost) :
  recorded (S (length h0)) k c pc -> costAt (h0 ++ o :: k) c = Some pc.
Proof.
  intros (j & jn & -> & Hj & Hn). unfold costAt.
  rewrite !lookup_middle_offset, Hj, lookup_middle_offset, Hn.
  by destruct pc.
Qed.

(** The call on the heap returns a new array that holds the records of the
    function on values, and changes no object that was there. *)
Lemma calculateCosts_refines (totalPrice : number) (n : Z) :
  exists (h' : heap),
    calculateCostsH people totalPrice n h0 = Some (length h0, h')
    /\ h0 `prefix_of` h'
    /\ costsAt h' (length h0) = Some (calculateCosts roster totalPrice n).
Proof.
  assert (length refs = length roster) as Hlen
    by (by eapply Forall2_length).
  unfold calculateCostsH.
  rewrite (bind_run _ _ _ _ _ (loadRefs_old h0 (reflexivity _))).
  unfold calculateCosts at 1. rewrite Hlen.
  destruct ((n =? 0) || Num.strict_eq totalPrice Num.zero
            || (length roster =? 0)%nat) eqn:Hguard.
  - exists (h0 ++ [RefArray []]). split; [done|].
    split; [by apply prefix_app_r|].
    unfold costsAt. by rewrite list_lookup_middle.
  - set (ppn := Num.div totalPrice (Num.of_Z n)).
    destruct (personLoop_spec ppn n refs roster [] [] [] refs_roster)
      as (k' & cs' & Hloop & Hrec); [constructor|].
    exists (h0 ++ RefArray cs' :: k').
    assert (alloc (RefArray []) h0 = Some (length h0, h0 ++ [RefArray []]))
      as Ha by done.
    rewrite (bind_run _ _ _ _ _ Ha), (bind_run _ _ _ _ _ Hloop).
    split; [done|]. split; [by apply prefix_app_r|].
    unfold costsAt. rewrite list_lookup_middle by done.
    rewrite foldl_snoc_map. cbn [app] in *.
    apply mapM_Some. eapply Forall2_impl; [exact Hrec|].
    intros c pc. apply costAt_recorded.
Qed.

End Roster.

Lemma personAt_prefix (h h' : heap) (l : loc) (p : Person) :
  h `prefix_of` h' -> personAt h l = Some p -> personAt h' l = Some p.
Proof.
  intros Hp. unfold personAt.
  destruct (h !! l) as [[pid nm ns| | | |]|] eqn:El; try done.
  destruct (h !! ns) as [[| |flags| |]|] eqn:En; try done.
  intros <-.
  by rewrite (prefix_lookup_Some _ _ _ _ El Hp),
             (prefix_lookup_Some _ _ _ _ En Hp).
Qed.

Lemma rosterAt_inv (h : heap) (l : loc) (roster : list Person) :
  rosterAt h l = Some roster ->
  exists refs, h !! l = Some (RefArray refs)
               /\ Forall2 (fun r p => personAt h r = Some p) refs roster.
Proof.
  unfold rosterAt. intros H.
  destruct (h !! l) as [[| | | |refs]|]; try done.
  exists refs. split; [done|]. by apply mapM_Some.
Qed.

(** An input roster is untouched by anything that only allocates. *)
Lemma rosterAt_prefix (h h' : heap) (l : loc) (roster : list Person) :
  h `prefix_of` h' -> rosterAt h l = Some roster ->
  rosterAt h' l = Some roster.
Proof.
  intros Hp H. destruct (rosterAt_inv h l roster H) as (refs & Hl & HF).
  unfold rosterAt. rewrite (prefix_lookup_Some _ _ _ _ Hl Hp).
  apply mapM_Some. eapply Forall2_impl; [exact HF|].
  intros r p. by apply personAt_prefix.
Qed.

Lemma costAt_prefix (h h' : heap) (l : loc) (c : PersonCost) :
  h `prefix_of` h' -> costAt h l = Some c -> costAt h' l = Some c.
Proof.
  intros Hp. unfold costAt.
  destruct (h !! l) as [[|pid pn t| | |]|] eqn:El; try done.
  destruct (h !! pn) as [[| | |xs|]|] eqn:En; try done.
  intros <-.
  by rewrite (prefix_lookup_Some _ _ _ _ El Hp),
             (prefix_lookup_Some _ _ _ _ En Hp).
Qed.

Lemma costsAt_prefix (h h' : heap) (l : loc) (cs : list PersonCost) :
  h `prefix_of` h' -> costsAt h l = Some cs -> costsAt h' l = Some cs.
Proof.
  intros Hp. unfold costsAt.
  destruct (h !! l) as [[| | | |refs]|] eqn:El; try done.
  rewrite (prefix_lookup_Some _ _ _ _ El Hp).
  intros H. apply mapM_Some. apply mapM_Some in H.
  eapply Forall2_impl; [exact H|]. intros r c. by apply costAt_prefix.
Qed.

End HeapFacts.

(** C8. [calculateCosts] is a function of the values of its arguments.  On
    any heap that holds a roster, the call returns a new array whose records
    are those of the function on values, whatever else the heap holds; it
    changes no object that existed before the call, the roster included; and
    a second call with the same arguments, on the heap the first one left,
    returns an array of the same records, the first array still holding
    its own. *)
Theorem calculateCosts_deterministic (h : Heap.heap) (people : Heap.loc)
    (roster : list Person) (totalPrice : number) (n : Z) :
  Heap.rosterAt h people = Some roster ->
  exists (r1 : Heap.loc) (h1 : Heap.heap) (r2 : Heap.loc) (h2 : Heap.heap),
    Heap.calculateCostsH people totalPrice n h = Some (r1, h1) /\
    Heap.calculateCostsH people totalPrice n h1 = Some (r2, h2) /\
    Heap.costsAt h1 r1 = Some (calculateCosts roster totalPrice n) /\
    Heap.costsAt h2 r2 = Some (calculateCosts roster totalPrice n) /\
    Heap.costsAt h2 r1 = Some (calculateCosts roster totalPrice n) /\
    h `prefix_of` h1 /\ h1 `prefix_of` h2 /\
    Heap.rosterAt h1 people = Some roster /\
    Heap.rosterAt h2 people = Some roster.
Proof.
  intros Hr.
  destruct (HeapFacts.rosterAt_inv h people roster Hr) as (refs & Hl & HF).
  destruct (HeapFacts.calculateCosts_refines h people refs roster Hl HF
              totalPrice n) as (h1 & Hrun1 & Hp1 & Hc1).
  pose proof (HeapFacts.rosterAt_prefix h h1 people roster Hp1 Hr) as Hr1.
  destruct (HeapFacts.rosterAt_inv h1 people roster Hr1)
    as (refs1 & Hl1 & HF1).
  destruct (HeapFacts.calculateCosts_refines h1 people refs1 roster Hl1 HF1
              totalPrice n) as (h2 & Hrun2 & Hp2 & Hc2).
  exists (length h), h1, (length h1), h2.
  repeat split; try done.
  - by eapply HeapFacts.costsAt_prefix.
  - by eapply HeapFacts.rosterAt_prefix.
Qed.

Lemma calculateCosts_deterministic_witness :
  let h := [Heap.BoolArray [true; true]; Heap.PersonObj "1" "Alice" 0%nat;
            Heap.BoolArray [true; false]; Heap.PersonObj "2" "Bob" 2%nat;
            Heap.RefArray [1%nat; 3%nat]] in
  let roster := [ {| id := "1"; name := "Alice"; nights := [true; true] |};
                  {| id := "2"; name := "Bob"; nights := [true; false] |} ] in
  exists (r1 : Heap.loc) (h1 : Heap.heap) (r2 : Heap.loc) (h2 : Heap.heap),
    Heap.calculateCostsH 4%nat (Num.of_Z 200) 2 h = Some (r1, h1) /\
    Heap.calculateCostsH 4%nat (Num.of_Z 200) 2 h1 = Some (r2, h2) /\
    Heap.costsAt h1 r1 = Some (calculateCosts roster (Num.of_Z 200) 2) /\
    Heap.costsAt h2 r2 = Some (calculateCosts roster (Num.of_Z 200) 2) /\
    Heap.costsAt h2 r1 = Some (calculateCosts roster (Num.of_Z 200) 2) /\
    h `prefix_of` h1 /\ h1 `prefix_of` h2 /\
    Heap.rosterAt h1 4%nat = Some roster /\
    Heap.rosterAt h2 4%nat = Some roster.
Proof.
  intros h roster.
  apply (calculateCosts_deterministic h 4%nat roster (Num.of_Z 200) 2).
  reflexivity.
Defined.



(** ** The page: what the updates of the roster do to the costs *)

Module AppFacts.

Lemma foldl_ext_in {A B : Type} (f g : B -> A -> B) (l : list A) (b : B) :
  (forall a, a ∈ l -> forall b', f b' a = g b' a) ->
  foldl f b l = foldl g b l.
Proof.
  revert b. induction l as [|a l IH]; intros b H; [done|].
  cbn [foldl]. rewrite H by apply list_elem_of_here.
  apply IH. intros a' Ha. apply H. by apply list_elem_of_further.
Qed.

(** The record of a person depends on the roster through the number of
    people present each night only, and on the person through the id and
    the flags below the night count. *)
Lemma personCost_ext (people people' : list Person) (ppn : number) (n : Z)
    (p p' : Person) :
  id p = id p' ->
  (forall i, (i < Z.to_nat n)%nat -> stayed p i = stayed p' i) ->
  (forall i, (i < Z.to_nat n)%nat ->
     peopleThisNight people i = peopleThisNight people' i) ->
  personCost people ppn n p = personCost people' ppn n p'.
Proof.
  intros Hid Hs Hc.
  assert (forall i, (i < Z.to_nat n)%nat ->
            share people ppn i = share people' ppn i) as Hsh.
  { intros i Hi. unfold share. by rewrite Hc. }
  rewrite (PersonCost_eta (personCost people ppn n p)),
          (PersonCost_eta (personCost people' ppn n p')).
  rewrite !personId_personCost, !perNight_personCost, !total_personCost.
  f_equal; [done| |].
  - apply Forall_fmap_ext_1, Forall_seq. intros i Hi.
    unfold nightCost. rewrite Hs, Hsh by lia. done.
  - apply foldl_ext_in. intros i Hi t. apply elem_of_seq in Hi.
    unfold addNight. rewrite Hs, Hsh by lia. done.
Qed.

Lemma peopleThisNight_ext (people people' : list Person) (i : nat) :
  Forall2 (fun p q => stayed p i = stayed q i) people people' ->
  peopleThisNight people i = peopleThisNight people' i.
Proof.
  unfold peopleThisNight. induction 1 as [|p q l l' Hpq HF IH]; [done|].
  destruct (stayed p i) eqn:Hp.
  - rewrite !filter_cons_True by (by rewrite <- ?Hpq, ?Hp). simpl. by rewrite IH.
  - rewrite !filter_cons_False by (rewrite <- ?Hpq, ?Hp; simpl; tauto). done.
Qed.

Lemma map_personCost_ext (outer outer' : list Person) (ppn : number) (n : Z)
    (l l' : list Person) :
  Forall2 (fun p q => id p = id q /\
             forall i, (i < Z.to_nat n)%nat -> stayed p i = stayed q i)
          l l' ->
  (forall i, (i < Z.to_nat n)%nat ->
     peopleThisNight outer i = peopleThisNight outer' i) ->
  map (personCost outer ppn n) l = map (personCost outer' ppn n) l'.
Proof.
  intros HF Hc. induction HF as [|p q l l' [Hid Hs] HF IH]; [done|].
  cbn [map]. f_equal; [|exact IH]. by apply personCost_ext.
Qed.

(** Rosters with the same ids and the same flags below the night count, in
    the same order, have the same costs. *)
Lemma calculateCosts_ext (people people' : list Person) (totalPrice : number)
    (n : Z) :
  Forall2 (fun p q => id p = id q /\
             forall i, (i < Z.to_nat n)%nat -> stayed p i = stayed q i)
          people people' ->
  calculateCosts people totalPrice n = calculateCosts people' totalPrice n.
Proof.
  intros HF. unfold calculateCosts.
  rewrite (Forall2_length _ _ _ HF).
  destruct (_ || _ || _); [done|].
  rewrite !foldl_snoc_map. cbn [app].
  apply map_personCost_ext; [done|].
  intros i Hi. apply peopleThisNight_ext.
  eapply Forall2_impl; [exact HF|]. intros p q [_ H]. by apply H.
Qed.

Lemma mapM_Normal {A B : Type} (f : A -> completion B) (g : A -> B)
    (l : list A) :
  (forall a, a ∈ l -> f a = Normal (g a)) -> mapM f l = Normal (map g l).
Proof.
  induction l as [|a l IH]; intros H; [done|].
  cbn [mapM map]. rewrite H by apply list_elem_of_here.
  cbn [mbind completion_bind]. rewrite IH; [done|].
  intros a' Ha. apply H. by apply list_elem_of_further.
Qed.

(** The flags of a person at the nights below [k]: [false] where the array
    has none. *)
Lemma stayed_tabulated (i0 : string) (nm : string) (p : Person) (k i : nat) :
  stayed {| id := i0; name := nm; nights := map (stayed p) (seq 0 k) |} i
  = (i <? k)%nat && stayed p i.
Proof.
  unfold stayed at 1. cbn [nights]. rewrite list_lookup_fmap.
  destruct (Nat.ltb_spec i k) as [Hlt|Hge].
  - by rewrite lookup_seq_lt.
  - by rewrite lookup_seq_ge.
Qed.

Lemma take_pad_flags (flags : list bool) (k : nat) :
  take k flags ++ replicate (k - length flags) false
  = map (fun i => match flags !! i with Some b => b | None => false end)
        (seq 0 k).
Proof.
  apply list_eq. intros i. rewrite list_lookup_fmap.
  destruct (Nat.lt_ge_cases i k) as [Hlt|Hge].
  - rewrite lookup_seq_lt by done. cbn [fmap option_fmap option_map Nat.add].
    destruct (Nat.lt_ge_cases i (length flags)) as [Hl|Hl].
    + rewrite lookup_app_l by (rewrite length_take; lia).
      rewrite lookup_take_lt by done.
      destruct (lookup_lt_is_Some_2 flags i Hl) as [b Hb]. by rewrite Hb.
    + rewrite lookup_app_r by (rewrite length_take; lia).
      rewrite length_take, (lookup_ge_None_2 flags i Hl).
      apply lookup_replicate_2. lia.
  - rewrite lookup_seq_ge by done. cbn.
    apply lookup_ge_None_2. rewrite length_app, length_take, length_replicate.
    lia.
Qed.

(** A person after the resize to [n] nights. *)
Lemma resizePerson_Normal (n : Z) (p : Person) :
  0 < n <= App.maxArrayLength ->
  App.resizePerson n p
  = Normal {| id := id p; name := name p;
              nights := map (stayed p) (seq 0 (Z.to_nat n)) |}.
Proof.
  intros Hn. unfold App.resizePerson, App.newFlags, App.maxArrayLength in *.
  set (k := Z.max 0 (n - Z.of_nat (length (nights p)))).
  assert ((k <? 0) || (4294967295 <? k) = false) as ->.
  { destruct (Z.ltb_spec k 0), (Z.ltb_spec 4294967295 k); subst k;
      simpl; try done; lia. }
  cbn [mbind completion_bind mret completion_ret]. do 2 f_equal. subst k.
  replace (Z.to_nat (Z.max 0 (n - Z.of_nat (length (nights p)))))
    with (Z.to_nat n - length (nights p))%nat by lia.
  apply take_pad_flags.
Qed.

(** The roster after the effect that follows a change of the night count. *)
Lemma resizeNights_Normal (nights : option Z) (prev : App.AppState) :
  App.orZero nights <= App.maxArrayLength ->
  App.resizeNights nights prev
  = Normal (App.withPeople prev
      (map (fun p => {| id := id p; name := name p;
                        nights := map (stayed p)
                                      (seq 0 (Z.to_nat (App.orZero nights))) |})
           (App.people prev))).
Proof.
  intros Hb. unfold App.resizeNights.
  destruct nights as [n|]; cbn [App.orZero] in *; [|done].
  destruct (Z.ltb_spec 0 n) as [Hpos|Hneg].
  - rewrite (mapM_Normal _ (fun p => {| id := id p; name := name p;
                               nights := map (stayed p) (seq 0 (Z.to_nat n)) |}));
      [done|].
    intros p _. by apply resizePerson_Normal.
  - replace (Z.to_nat n) with 0%nat by lia. done.
Qed.


(** The costs without the test on the roster: the loop over no person gives
    no record. *)
Lemma calculateCosts_map (people : list Person) (totalPrice : number)
    (n : Z) :
  calculateCosts people totalPrice n
  = if (n =? 0) || Num.strict_eq totalPrice Num.zero then []
    else map (personCost people (Num.div totalPrice (Num.of_Z n)) n) people.
Proof.
  unfold calculateCosts.
  destruct ((n =? 0) || Num.strict_eq totalPrice Num.zero); [done|].
  cbn [orb]. destruct people as [|p l]; [done|].
  cbn [length Nat.eqb]. by rewrite foldl_snoc_map.
Qed.

(** As [personCost_ext], where the counts need to agree on the nights of
    the person only. *)
Lemma personCost_ext_stayed (people people' : list Person) (ppn : number)
    (n : Z) (p p' : Person) :
  id p = id p' ->
  (forall i, (i < Z.to_nat n)%nat -> stayed p i = stayed p' i) ->
  (forall i, (i < Z.to_nat n)%nat -> stayed p i = true ->
     peopleThisNight people i = peopleThisNight people' i) ->
  personCost people ppn n p = personCost people' ppn n p'.
Proof.
  intros Hid Hs Hc.
  rewrite (PersonCost_eta (personCost people ppn n p)),
          (PersonCost_eta (personCost people' ppn n p')).
  rewrite !personId_personCost, !perNight_personCost, !total_personCost.
  f_equal; [done| |].
  - apply Forall_fmap_ext_1, Forall_seq. intros i Hi.
    unfold nightCost, share. rewrite <- Hs by lia.
    destruct (stayed p i) eqn:Hp; [|done]. rewrite Hc by (done || lia). done.
  - apply foldl_ext_in. intros i Hi t. apply elem_of_seq in Hi.
    unfold addNight, share. rewrite <- Hs by lia.
    destruct (stayed p i) eqn:Hp; [|done]. rewrite Hc by (done || lia). done.
Qed.

Lemma peopleThisNight_app (l l' : list Person) (i : nat) :
  peopleThisNight (l ++ l') i
  = (peopleThisNight l i + peopleThisNight l' i)%nat.
Proof. unfold peopleThisNight. by rewrite filter_app, length_app. Qed.

(** The record of a person who stayed no night. *)
Lemma personCost_absent (people : list Person) (ppn : number) (n : Z)
    (p : Person) :
  (forall i, (i < Z.to_nat n)%nat -> stayed p i = false) ->
  personCost people ppn n p
  = {| personId := id p; perNight := replicate (Z.to_nat n) Num.zero;
       total := Num.zero |}.
Proof.
  intros Hs. rewrite (PersonCost_eta (personCost people ppn n p)).
  rewrite personId_personCost, perNight_personCost, total_personCost.
  f_equal.
  - apply list_eq. intros i. rewrite list_lookup_fmap.
    destruct (Nat.lt_ge_cases i (Z.to_nat n)) as [Hlt|Hge].
    + rewrite lookup_seq_lt, lookup_replicate_2 by done. cbn.
      by rewrite nightCost_absent by (by apply Hs).
    + rewrite lookup_seq_ge by done. symmetry. apply lookup_ge_None_2.
      by rewrite length_replicate.
  - assert (forall l t, (forall i, i ∈ l -> (i < Z.to_nat n)%nat) ->
              foldl (addNight people ppn p) t l = t) as H.
    { induction l as [|i l IH]; intros t Hl; [done|]. cbn [foldl].
      unfold addNight at 2. rewrite Hs by (apply Hl, list_elem_of_here).
      apply IH. intros j Hj. by apply Hl, list_elem_of_further. }
    apply H. intros i Hi. apply elem_of_seq in Hi. lia.
Qed.

Lemma stayed_replicate_false (i0 nm : string) (k i : nat) :
  stayed {| id := i0; name := nm; nights := replicate k false |} i = false.
Proof.
  unfold stayed. cbn [nights].
  destruct (replicate k false !! i) as [b|] eqn:Hb; [|done].
  by apply lookup_replicate in Hb as [-> _].
Qed.

Lemma AppState_eta (s : App.AppState) : App.withPeople s (App.people s) = s.
Proof. by destruct s. Qed.

Lemma filter_all {A : Type} (P : A -> Prop) `{!forall a, Decision (P a)}
    (l : list A) :
  Forall P l -> filter P l = l.
Proof.
  induction 1 as [|a l Ha _ IH]; [done|].
  by rewrite filter_cons_True, IH.
Qed.

(** Leaving out people who stayed no night changes no count. *)
Lemma peopleThisNight_filter (keep : Person -> bool) (l : list Person)
    (i : nat) :
  (forall p, p ∈ l -> keep p = false -> stayed p i = false) ->
  peopleThisNight (filter (fun p => keep p) l) i = peopleThisNight l i.
Proof.
  unfold peopleThisNight. induction l as [|p l IH]; intros H; [done|].
  assert (length (filter (fun p => stayed p i) (filter (fun p => keep p) l))
          = length (filter (fun p => stayed p i) l)) as IH'.
  { apply IH. intros q Hq. by apply H, list_elem_of_further. }
  destruct (keep p) eqn:Hk.
  - rewrite (filter_cons_True (fun p => keep p)) by (by rewrite Hk).
    destruct (stayed p i) eqn:Hp.
    + rewrite !(filter_cons_True (fun p => stayed p i)) by (by rewrite Hp).
      cbn [length]. by rewrite IH'.
    + rewrite !(filter_cons_False (fun p => stayed p i))
        by (rewrite Hp; simpl; tauto).
      done.
  - rewrite (filter_cons_False (fun p => keep p)) by (rewrite Hk; simpl; tauto).
    rewrite (filter_cons_False (fun p => stayed p i)); [done|].
    rewrite (H p (list_elem_of_here _ _) Hk). simpl. tauto.
Qed.

Lemma Forall2_same {A : Type} (R : A -> A -> Prop) (l : list A) :
  (forall a, R a a) -> Forall2 R l l.
Proof. intros H. induction l; by constructor. Qed.

(** Filtering the records by id is filtering the people. *)
Lemma filter_map_personCost (outer : list Person) (ppn : number) (n : Z)
    (i : string) (l : list Person) :
  map (personCost outer ppn n)
      (filter (fun p => negb (String.eqb (id p) i)) l)
  = filter (fun c => negb (String.eqb (personId c) i))
           (map (personCost outer ppn n) l).
Proof.
  induction l as [|p l IH]; [done|].
  cbn [map].
  destruct (String.eqb (id p) i) eqn:Hp.
  - rewrite filter_cons_False by (rewrite Hp; simpl; tauto).
    rewrite filter_cons_False
      by (rewrite personId_personCost, Hp; simpl; tauto).
    exact IH.
  - rewrite filter_cons_True by (by rewrite Hp).
    rewrite (filter_cons_True _ (personCost _ _ _ p))
      by (by rewrite personId_personCost, Hp).
    cbn [map]. by rewrite IH.
Qed.

(** The person that [toggleNight] puts in the place of [p]. *)
Lemma toggleFlags_lookup (idx : Z) (flags : list bool) (j : nat) :
  App.toggleFlags idx flags !! j
  = (fun b : bool => if Z.of_nat j =? idx then negb b else b) <$> flags !! j.
Proof. unfold App.toggleFlags. by rewrite list_lookup_imap. Qed.

Lemma toggleFlags_length (idx : Z) (flags : list bool) :
  length (App.toggleFlags idx flags) = length flags.
Proof. unfold App.toggleFlags. by rewrite length_imap. Qed.

Lemma toggleFlags_involutive (idx : Z) (flags : list bool) :
  App.toggleFlags idx (App.toggleFlags idx flags) = flags.
Proof.
  apply list_eq. intros j. rewrite !toggleFlags_lookup.
  destruct (flags !! j) as [b|]; [|done]. cbn.
  destruct (Z.of_nat j =? idx); [|done]. by rewrite negb_involutive.
Qed.

Lemma toggleFlags_out_of_range (idx : Z) (flags : list bool) :
  idx < 0 \/ Z.of_nat (length flags) <= idx ->
  App.toggleFlags idx flags = flags.
Proof.
  intros Hidx. apply list_eq. intros j. rewrite toggleFlags_lookup.
  destruct (flags !! j) as [b|] eqn:Hb; [|done]. cbn.
  apply lookup_lt_Some in Hb.
  destruct (Z.eqb_spec (Z.of_nat j) idx); [lia|done].
Qed.

Lemma stayed_toggled (i0 nm : string) (idx : Z) (p : Person) (j : nat) :
  Z.of_nat j <> idx ->
  stayed {| id := i0; name := nm;
            nights := App.toggleFlags idx (nights p) |} j
  = stayed p j.
Proof.
  intros Hj. unfold stayed. cbn [nights]. rewrite toggleFlags_lookup.
  destruct (nights p !! j) as [b|]; [|done]. cbn.
  by destruct (Z.eqb_spec (Z.of_nat j) idx).
Qed.

Lemma Person_eta (p : Person) :
  {| id := id p; name := name p; nights := nights p |} = p.
Proof. by destruct p. Qed.

(** The flags of the other nights after [toggleNight]. *)
Lemma toggleNight_stayed (personId : string) (idx : Z) (l : list Person)
    (j : nat) :
  Z.of_nat j <> idx ->
  Forall2 (fun p q => id p = id q /\ stayed p j = stayed q j)
    (map (fun p => if String.eqb (id p) personId
                   then {| id := id p; name := name p;
                           nights := App.toggleFlags idx (nights p) |}
                   else p) l)
    l.
Proof.
  intros Hj. induction l as [|p l IH]; constructor; [|exact IH].
  destruct (String.eqb (id p) personId); [|done].
  split; [done|]. by apply stayed_toggled.
Qed.

Lemma toggleNight_count (personId : string) (idx : Z) (prev : App.AppState)
    (j : nat) :
  Z.of_nat j <> idx ->
  peopleThisNight (App.people (App.toggleNight personId idx prev)) j
  = peopleThisNight (App.people prev) j.
Proof.
  intros Hj. apply peopleThisNight_ext.
  unfold App.toggleNight. cbn [App.withPeople App.people].
  eapply Forall2_impl; [by apply toggleNight_stayed|].
  by intros p q [_ H].
Qed.

Lemma nightColumn_ext (cs cs' : list PersonCost) (j : nat) :
  Forall2 (fun c c' => perNight c !! j = perNight c' !! j) cs cs' ->
  nightColumn cs j = nightColumn cs' j.
Proof.
  unfold nightColumn. induction 1 as [|c c' l l' Hc _ IH]; [done|].
  cbn [omap list_omap]. by rewrite Hc, IH.
Qed.

Lemma nightColumn_toggled (outer outer' : list Person) (ppn : number)
    (n : Z) (personId : string) (idx : Z) (l : list Person) (j : nat) :
  Z.of_nat j <> idx ->
  peopleThisNight outer j = peopleThisNight outer' j ->
  nightColumn
    (map (personCost outer ppn n)
       (map (fun p => if String.eqb (id p) personId
                      then {| id := id p; name := name p;
                              nights := App.toggleFlags idx (nights p) |}
                      else p) l)) j
  = nightColumn (map (personCost outer' ppn n) l) j.
Proof.
  intros Hj Hc. apply nightColumn_ext.
  rewrite map_map. apply Forall2_fmap, Forall_Forall2_diag, Forall_forall.
  intros p _. rewrite !perNight_personCost, !list_lookup_fmap.
  destruct (seq 0 (Z.to_nat n) !! j) as [i|] eqn:Hi; [|done].
  apply lookup_seq in Hi as [-> _]. cbn. f_equal.
  unfold nightCost, share. rewrite Hc.
  destruct (String.eqb (id p) personId); [|done].
  by rewrite stayed_toggled.
Qed.

(** A toggle passes over the people with another id. *)
Lemma toggle_others (personId : string) (idx : Z) (l : list Person) :
  personId ∉ map id l ->
  map (fun p => if String.eqb (id p) personId
                then {| id := id p; name := name p;
                        nights := App.toggleFlags idx (nights p) |}
                else p) l
  = l.
Proof.
  intros Hfresh. etransitivity; [|apply map_id].
  apply map_ext_in. intros p Hp. apply list_elem_of_In in Hp.
  destruct (String.eqb_spec (id p) personId) as [Heq|Hne]; [|done].
  exfalso. apply Hfresh. rewrite <- Heq. by apply list_elem_of_fmap_2.
Qed.

Lemma find_map_personCost (outer : list Person) (ppn : number) (n : Z)
    (i : string) (l : list Person) :
  List.find (fun c => String.eqb (personId c) i)
            (map (personCost outer ppn n) l)
  = personCost outer ppn n <$> List.find (fun p => String.eqb (id p) i) l.
Proof.
  induction l as [|p l IH]; [done|].
  cbn [map List.find]. rewrite personId_personCost.
  by destruct (String.eqb (id p) i).
Qed.

Lemma find_unique_id (l : list Person) (p : Person) :
  NoDup (map id l) -> p ∈ l ->
  List.find (fun q => String.eqb (id q) (id p)) l = Some p.
Proof.
  induction l as [|q l IH]; intros Hnd Hp; [by apply elem_of_nil in Hp|].
  cbn [map] in Hnd. apply NoDup_cons in Hnd as [Hq Hnd].
  cbn [List.find]. apply elem_of_cons in Hp as [->|Hp].
  - by rewrite String.eqb_refl.
  - destruct (String.eqb_spec (id q) (id p)) as [Heq|Hne]; [|by apply IH].
    exfalso. apply Hq. rewrite Heq. by apply list_elem_of_fmap_2.
Qed.

Lemma find_id_None (l : list Person) (i : string) :
  List.find (fun q => String.eqb (id q) i) l = None <-> i ∉ map id l.
Proof.
  induction l as [|q l IH]; cbn [map List.find].
  - split; [|done]. intros _ H. by apply elem_of_nil in H.
  - destruct (String.eqb_spec (id q) i) as [Heq|Hne].
    + split; [done|]. intros H. exfalso. apply H. rewrite Heq.
      apply list_elem_of_here.
    + rewrite IH, not_elem_of_cons. split; [by split|by intros [_ H]].
Qed.

(** *** The night count the page works with *)

Lemma newFlags_Normal (k : Z) :
  0 <= k <= App.maxArrayLength ->
  App.newFlags k = Normal (replicate (Z.to_nat k) false).
Proof.
  intros Hk. unfold App.newFlags.
  destruct (Z.ltb_spec k 0), (Z.ltb_spec App.maxArrayLength k);
    simpl; try done; lia.
Qed.

(** Once an error is thrown, the loop of [getNightDates] makes no further
    turn. *)
Lemma getNightDates_thrown (label : nat -> completion string)
    (l : list nat) :
  foldl (fun acc i => dates ← acc; s ← label i; mret (dates ++ [s]))
        (RangeError : completion (list string)) l
  = RangeError.
Proof. induction l as [|i l IH]; [done|]. exact IH. Qed.

(** The night count between two dates with four-digit years, on a host
    whose offset stays below a day. *)
Lemma calculateNights_dates (LocalTZA : Z -> bool -> Z)
    (hostParse : string -> option Z) (y1 m1 d1 y2 m2 d2 : Z) :
  (forall t b, Z.abs (LocalTZA t b) < ES.msPerDay) ->
  ES.validDate y1 m1 d1 -> ES.validDate y2 m2 d2 ->
  let D := ES.dayNumber y2 m2 d2 - ES.dayNumber y1 m1 d1 in
  exists n : Z,
    calculateNights LocalTZA hostParse
                    (ES.isoDate y1 m1 d1) (ES.isoDate y2 m2 d2) = Some n /\
    Z.max 0 (D - 2) <= n <= Z.max 0 (D + 1) /\ n <= 3652425.
Proof.
  intros Hsmall Hv1 Hv2 D.
  pose proof (DateFacts.dayNumber_range _ _ _ Hv1) as Hr1.
  pose proof (DateFacts.dayNumber_range _ _ _ Hv2) as Hr2.
  unfold calculateNights.
  rewrite !DateFacts.isEmpty_isoDate. cbn [orb].
  rewrite !DateFacts.newDate_isoDate by done.
  cbn [dateLe]. unfold ES.UTC.
  pose proof (Hsmall (ES.dayNumber y1 m1 d1 * ES.msPerDay) false) as Ho1.
  pose proof (Hsmall (ES.dayNumber y2 m2 d2 * ES.msPerDay) false) as Ho2.
  set (o1 := LocalTZA (ES.dayNumber y1 m1 d1 * ES.msPerDay) false) in *.
  set (o2 := LocalTZA (ES.dayNumber y2 m2 d2 * ES.msPerDay) false) in *.
  subst D. unfold ES.msPerDay in *.
  destruct (Z.leb_spec (ES.dayNumber y2 m2 d2 * 86400000 - o2)
                       (ES.dayNumber y1 m1 d1 * 86400000 - o1)) as [Hle|Hgt].
  - exists 0. split; [done|]. lia.
  - eexists. split; [reflexivity|].
    change (1000 * 60 * 60 * 24) with 86400000.
    Z.div_mod_to_equations. lia.
Qed.

(** The loop of [getNightDates] run turn by turn, against its closed
    form. *)
Lemma nightDatesLoop_Some (LocalTZA : Z -> bool -> Z)
    (checkInDate : option Z) (n : Z) (k : nat) :
  forall (fuel i : nat) (dates : list string),
    Z.of_nat (i + k) = Z.max 0 n \/ (k = 0%nat /\ n <= Z.of_nat i) ->
    (k < fuel)%nat ->
    nightDatesLoop LocalTZA fuel checkInDate (Some n) i dates
    = Some (foldl (fun acc i =>
                     dates ← acc;
                     label ← nightLabel LocalTZA checkInDate i;
                     mret (dates ++ [label]))
                  (Normal dates) (seq i k)).
Proof.
  induction k as [|k IH]; intros fuel i dates Hk Hfuel.
  - destruct fuel as [|fuel]; [lia|]. cbn [nightDatesLoop lessThan seq foldl].
    replace (Z.of_nat i <? n) with false by lia. done.
  - destruct fuel as [|fuel]; [lia|]. cbn [nightDatesLoop lessThan seq foldl].
    replace (Z.of_nat i <? n) with true by lia.
    destruct (nightLabel LocalTZA checkInDate i) as [label|].
    + cbn [mbind completion_bind mret completion_ret].
      apply IH; lia.
    + cbn [mbind completion_bind].
      by rewrite
        (getNightDates_thrown (nightLabel LocalTZA checkInDate)).
Qed.

(** With a night count that is a number, and fuel for one test more than
    there are turns, the run gives what [getNightDates] gives. *)
Lemma getNightDatesStepwise_Some (LocalTZA : Z -> bool -> Z)
    (hostParse : string -> option Z) (fuel : nat) (checkIn : string)
    (n : Z) :
  (Z.to_nat n < fuel)%nat ->
  getNightDatesStepwise LocalTZA hostParse fuel checkIn (Some n)
  = Some (getNightDates LocalTZA hostParse checkIn n).
Proof.
  intros Hfuel. unfold getNightDatesStepwise, getNightDates.
  cbn [strictEqZero].
  destruct (isEmpty checkIn || (n =? 0)); [done|].
  apply nightDatesLoop_Some; lia.
Qed.

(** So the labels of the page are the ones that the run gives. *)
Lemma nightDatesStepwise_nightDates (LocalTZA : Z -> bool -> Z)
    (hostParse : string -> option Z) (fuel : nat) (s : App.AppState) :
  (Z.to_nat (App.orZero (App.nights LocalTZA hostParse s)) < fuel)%nat ->
  nightDatesStepwise LocalTZA hostParse fuel s
  = Some (App.nightDates LocalTZA hostParse s).
Proof.
  unfold nightDatesStepwise, App.nightDates.
  destruct (App.nights LocalTZA hostParse s) as [n|]; cbn [App.orZero].
  - apply getNightDatesStepwise_Some.
  - intros Hfuel. unfold getNightDatesStepwise. cbn [strictEqZero].
    rewrite orb_false_r. destruct (isEmpty (App.checkInDate s)); [done|].
    destruct fuel as [|fuel]; [lia|]. done.
Qed.

End AppFacts.

(** X1. The effect that follows a change of the night count gives every
    person exactly [nights] flags, none when [nights] is [0] or [NaN]: the
    flag of night [i] is the old one where there was one and [false]
    otherwise.  Ids, names, the order of the roster and the other fields of
    the state stay as they were.  Nothing is thrown as long as [nights] is a
    length an array can have. *)
Theorem resizeNights_flags (count : option Z) (prev : App.AppState) :
  App.orZero count <= App.maxArrayLength ->
  exists next : App.AppState,
    App.resizeNights count prev = Normal next /\
    App.totalPrice next = App.totalPrice prev /\
    App.checkInDate next = App.checkInDate prev /\
    App.checkOutDate next = App.checkOutDate prev /\
    map id (App.people next) = map id (App.people prev) /\
    map name (App.people next) = map name (App.people prev) /\
    forall (k : nat) (p : Person), App.people prev !! k = Some p ->
      exists p' : Person,
        App.people next !! k = Some p' /\
        length (nights p') = Z.to_nat (App.orZero count) /\
        forall i : nat, (i < Z.to_nat (App.orZero count))%nat ->
          nights p' !! i = Some (stayed p i).
Proof.
  intros Hb. eexists. split; [by apply AppFacts.resizeNights_Normal|].
  cbn [App.withPeople App.totalPrice App.checkInDate App.checkOutDate
       App.people].
  repeat split; try done.
  - rewrite map_map. by apply map_ext.
  - rewrite map_map. by apply map_ext.
  - intros k p Hk. eexists. split; [by rewrite list_lookup_fmap, Hk|].
    cbn [nights]. split; [by rewrite length_map, length_seq|].
    intros i Hi. by rewrite list_lookup_fmap, lookup_seq_lt.
Qed.

Lemma resizeNights_flags_witness :
  let prev := {| App.totalPrice := "300"; App.checkInDate := "2024-01-15";
                 App.checkOutDate := "2024-01-18";
                 App.people := [guest "1" [true; true; true; true; true];
                                guest "2" [true]] |} in
  exists next : App.AppState,
    App.resizeNights (Some 3) prev = Normal next /\
    App.people next = [guest "1" [true; true; true];
                       guest "2" [true; false; false]].
Proof.
  intros prev.
  destruct (resizeNights_flags (Some 3) prev) as (next & Hrun & _);
    [vm_compute; discriminate|].
  exists next. split; [exact Hrun|].
  vm_compute in Hrun. by injection Hrun as <-.
Defined.

(** X2. The effect does not change what anybody pays: the costs of the
    resized roster for [n] nights are those of the roster before. *)
Theorem resizeNights_keeps_costs (n : Z) (prev : App.AppState)
    (price : number) :
  n <= App.maxArrayLength ->
  exists next : App.AppState,
    App.resizeNights (Some n) prev = Normal next /\
    calculateCosts (App.people next) price n
    = calculateCosts (App.people prev) price n.
Proof.
  intros Hb. eexists.
  split; [by apply (AppFacts.resizeNights_Normal (Some n))|].
  cbn [App.withPeople App.people App.orZero].
  apply AppFacts.calculateCosts_ext.
  induction (App.people prev) as [|p l IH]; constructor; [|exact IH].
  split; [done|]. intros i Hi. rewrite AppFacts.stayed_tabulated.
  apply Nat.ltb_lt in Hi. by rewrite Hi.
Qed.

Lemma resizeNights_keeps_costs_witness :
  let prev := {| App.totalPrice := "300"; App.checkInDate := "2024-01-15";
                 App.checkOutDate := "2024-01-17";
                 App.people := [guest "1" [true; true; true; true];
                                guest "2" [true]] |} in
  exists next : App.AppState,
    App.resizeNights (Some 2) prev = Normal next /\
    calculateCosts (App.people next) (Num.of_Z 300) 2
    = calculateCosts (App.people prev) (Num.of_Z 300) 2.
Proof.
  intros prev. apply (resizeNights_keeps_costs 2 prev (Num.of_Z 300)).
  vm_compute; discriminate.
Defined.

(** X3. Two changes of the night count in a row, to [c1] and then to [c2]
    nights: a person ends with [c2] flags, and the flag of night [i] is the
    first one where [i] is below [c1] and [false] otherwise.  So the flags
    that a shorter stay cut off do not come back when the stay grows again,
    and shrinking in two steps is shrinking at once. *)
Theorem resizeNights_twice (c1 c2 : option Z) (prev : App.AppState) :
  App.orZero c1 <= App.maxArrayLength ->
  App.orZero c2 <= App.maxArrayLength ->
  exists mid next : App.AppState,
    App.resizeNights c1 prev = Normal mid /\
    App.resizeNights c2 mid = Normal next /\
    App.people next
    = map (fun p =>
             {| id := id p; name := name p;
                nights := map (fun i => (i <? Z.to_nat (App.orZero c1))%nat
                                        && stayed p i)
                              (seq 0 (Z.to_nat (App.orZero c2))) |})
          (App.people prev) /\
    (App.orZero c2 <= App.orZero c1 ->
     App.resizeNights c2 prev = Normal next).
Proof.
  intros H1 H2. do 2 eexists.
  split; [by apply AppFacts.resizeNights_Normal|].
  split; [by apply AppFacts.resizeNights_Normal|].
  cbn [App.withPeople App.people].
  split.
  - rewrite map_map. apply map_ext. intros p. cbn [id name]. f_equal.
    apply map_ext. intros i. apply AppFacts.stayed_tabulated.
  - intros Hle. rewrite AppFacts.resizeNights_Normal by done.
    f_equal. unfold App.withPeople. cbn [App.totalPrice App.checkInDate
      App.checkOutDate App.people]. f_equal.
    rewrite map_map. apply map_ext. intros p. cbn [id name]. f_equal.
    apply Forall_fmap_ext_1, Forall_seq. intros i Hi.
    rewrite AppFacts.stayed_tabulated.
    replace (i <? Z.to_nat (App.orZero c1))%nat with true; [done|].
    symmetry. apply Nat.ltb_lt. lia.
Qed.

Lemma resizeNights_twice_witness :
  let prev := {| App.totalPrice := "300"; App.checkInDate := "2024-01-15";
                 App.checkOutDate := "2024-01-18";
                 App.people := [guest "1" [true; true; true]] |} in
  exists mid next : App.AppState,
    App.resizeNights (Some 1) prev = Normal mid /\
    App.resizeNights (Some 3) mid = Normal next /\
    App.people next = [guest "1" [true; false; false]].
Proof.
  intros prev.
  destruct (resizeNights_twice (Some 1) (Some 3) prev)
    as (mid & next & Hmid & Hnext & Hflags & _);
    [vm_compute; discriminate | vm_compute; discriminate |].
  exists mid, next. split; [exact Hmid|]. split; [exact Hnext|].
  rewrite Hflags. reflexivity.
Defined.

(** X4. [addPerson] puts the new person last, with [nights] flags that are
    all [false], and leaves the others as they are.  The costs are those of
    before, followed by a record of zeros for the new person; when the
    roster was empty that record is the only one. *)
Theorem addPerson_costs (now : string) (n : Z) (prev : App.AppState)
    (price : number) :
  0 <= n <= App.maxArrayLength ->
  exists next : App.AppState,
    App.addPerson now (Some n) prev = Normal next /\
    App.people next
    = App.people prev
      ++ [ {| id := now; name := ""; nights := replicate (Z.to_nat n) false |} ]
    /\
    calculateCosts (App.people next) price n
    = if (n =? 0) || Num.strict_eq price Num.zero then []
      else calculateCosts (App.people prev) price n
           ++ [ {| personId := now;
                   perNight := replicate (Z.to_nat n) Num.zero;
                   total := Num.zero |} ].
Proof.
  intros Hn. unfold App.addPerson, App.newFlags. cbn [App.orZero].
  assert ((n <? 0) || (App.maxArrayLength <? n) = false) as ->.
  { destruct (Z.ltb_spec n 0), (Z.ltb_spec App.maxArrayLength n);
      simpl; try done; lia. }
  cbn [mbind completion_bind mret completion_ret].
  eexists. split; [done|]. cbn [App.withPeople App.people]. split; [done|].
  rewrite !AppFacts.calculateCosts_map.
  destruct ((n =? 0) || Num.strict_eq price Num.zero); [done|].
  rewrite map_app. cbn [map]. f_equal.
  - apply AppFacts.map_personCost_ext.
    + apply AppFacts.Forall2_same. done.
    + intros i _. rewrite AppFacts.peopleThisNight_app.
      unfold peopleThisNight at 2.
      rewrite filter_cons_False
        by (rewrite AppFacts.stayed_replicate_false; simpl; tauto).
      cbn. lia.
  - f_equal. rewrite AppFacts.personCost_absent; [done|].
    intros i _. apply AppFacts.stayed_replicate_false.
Qed.

Lemma addPerson_costs_witness :
  let prev := {| App.totalPrice := "200"; App.checkInDate := "2024-01-15";
                 App.checkOutDate := "2024-01-17";
                 App.people := [guest "1" [true; true]] |} in
  exists next : App.AppState,
    App.addPerson "1700000000000" (Some 2) prev = Normal next /\
    App.people next
    = [guest "1" [true; true];
       {| id := "1700000000000"; name := ""; nights := [false; false] |}] /\
    calculateCosts (App.people next) (Num.of_Z 200) 2
    = calculateCosts (App.people prev) (Num.of_Z 200) 2
      ++ [ {| personId := "1700000000000";
              perNight := [Num.zero; Num.zero]; total := Num.zero |} ].
Proof.
  intros prev.
  apply (addPerson_costs "1700000000000" 2 prev (Num.of_Z 200)).
  vm_compute. split; discriminate.
Defined.

(** X5. Removing the person that [addPerson] has just added gives the state
    of before, as long as nobody else has the same id: [removePerson] takes
    out every person with the id. *)
Theorem removePerson_addPerson (now : string) (count : option Z)
    (prev next : App.AppState) :
  now ∉ map id (App.people prev) ->
  App.addPerson now count prev = Normal next ->
  App.removePerson now next = prev.
Proof.
  intros Hfresh Hadd. unfold App.addPerson in Hadd.
  destruct (App.newFlags (App.orZero count)) as [flags|]; [|done].
  cbn [mbind completion_bind mret completion_ret] in Hadd.
  injection Hadd as <-. unfold App.removePerson.
  cbn [App.withPeople App.people App.totalPrice App.checkInDate
       App.checkOutDate].
  rewrite filter_app, filter_cons_False, filter_nil, app_nil_r.
  - rewrite AppFacts.filter_all; [by destruct prev|].
    apply Forall_forall. intros p Hp.
    destruct (String.eqb_spec (id p) now) as [Heq|Hne]; [|done].
    exfalso. apply Hfresh. rewrite <- Heq. by apply list_elem_of_fmap_2.
  - cbn [id]. rewrite String.eqb_refl. simpl. tauto.
Qed.

Lemma removePerson_addPerson_witness :
  let prev := {| App.totalPrice := "200"; App.checkInDate := "2024-01-15";
                 App.checkOutDate := "2024-01-17";
                 App.people := [guest "1" [true; true]] |} in
  exists next : App.AppState,
    App.addPerson "2" (Some 2) prev = Normal next /\
    App.removePerson "2" next = prev.
Proof.
  intros prev. eexists. split; [reflexivity|].
  apply (removePerson_addPerson "2" (Some 2) prev); [|reflexivity].
  cbn. intros H. apply list_elem_of_singleton in H. discriminate.
Defined.

(** X6. Removing people who stayed no night changes nobody else's costs: the
    costs of the new roster are the old ones without the records of the
    people removed. *)
Theorem removePerson_absent_costs (i : string) (prev : App.AppState)
    (price : number) (n : Z) :
  (forall p, p ∈ App.people prev -> id p = i ->
     forall k, (k < Z.to_nat n)%nat -> stayed p k = false) ->
  calculateCosts (App.people (App.removePerson i prev)) price n
  = filter (fun c => negb (String.eqb (personId c) i))
           (calculateCosts (App.people prev) price n).
Proof.
  intros Habs. unfold App.removePerson. cbn [App.withPeople App.people].
  rewrite !AppFacts.calculateCosts_map.
  destruct ((n =? 0) || Num.strict_eq price Num.zero); [done|].
  set (ppn := Num.div price (Num.of_Z n)).
  rewrite (AppFacts.map_personCost_ext _ (App.people prev) ppn n _
             (filter (fun p => negb (String.eqb (id p) i)) (App.people prev))).
  - apply AppFacts.filter_map_personCost.
  - apply AppFacts.Forall2_same. done.
  - intros k Hk.
    apply (AppFacts.peopleThisNight_filter
             (fun p => negb (String.eqb (id p) i))).
    intros p Hp Hid. apply Habs; [done| |done].
    apply String.eqb_eq. by destruct (String.eqb (id p) i).
Qed.

Lemma removePerson_absent_costs_witness :
  let prev := {| App.totalPrice := "200"; App.checkInDate := "2024-01-15";
                 App.checkOutDate := "2024-01-17";
                 App.people := [guest "1" [true; true];
                                guest "2" [false; false];
                                guest "3" [false; true]] |} in
  calculateCosts (App.people (App.removePerson "2" prev)) (Num.of_Z 200) 2
  = filter (fun c => negb (String.eqb (personId c) "2"))
           (calculateCosts (App.people prev) (Num.of_Z 200) 2).
Proof.
  intros prev. apply (removePerson_absent_costs "2" prev (Num.of_Z 200) 2).
  intros p Hp Hid k Hk.
  cbn in Hp. rewrite !elem_of_cons in Hp.
  destruct Hp as [->|[->|[->|Hp]]].
  - discriminate.
  - by destruct k as [|[|k]].
  - discriminate.
  - by apply elem_of_nil in Hp.
Defined.

(** X7. Changing a name changes no costs: the records go by id and flags. *)
Theorem updatePersonName_keeps_costs (i nm : string) (prev : App.AppState)
    (price : number) (n : Z) :
  calculateCosts (App.people (App.updatePersonName i nm prev)) price n
  = calculateCosts (App.people prev) price n
  /\ map id (App.people (App.updatePersonName i nm prev))
     = map id (App.people prev)
  /\ map nights (App.people (App.updatePersonName i nm prev))
     = map nights (App.people prev).
Proof.
  unfold App.updatePersonName. cbn [App.withPeople App.people].
  split; [|split].
  - apply AppFacts.calculateCosts_ext.
    induction (App.people prev) as [|p l IH]; constructor; [|exact IH].
    by destruct (String.eqb (id p) i).
  - rewrite map_map. apply map_ext. intros p.
    by destruct (String.eqb (id p) i).
  - rewrite map_map. apply map_ext. intros p.
    by destruct (String.eqb (id p) i).
Qed.

(** X8. Toggling the same night of the same person twice gives the state of
    before. *)
Theorem toggleNight_twice (personId : string) (nightIndex : Z)
    (prev : App.AppState) :
  App.toggleNight personId nightIndex
    (App.toggleNight personId nightIndex prev)
  = prev.
Proof.
  destruct prev as [tp ci co ps]. unfold App.toggleNight, App.withPeople.
  cbn [App.people App.totalPrice App.checkInDate App.checkOutDate]. f_equal.
  rewrite map_map. etransitivity; [|apply map_id].
  apply map_ext. intros p.
  destruct (String.eqb (id p) personId) eqn:Hp; cbn [id]; rewrite Hp.
  - cbn [id name nights]. rewrite AppFacts.toggleFlags_involutive.
    apply AppFacts.Person_eta.
  - done.
Qed.

(** X9. A toggle of night [nightIndex] changes nothing about the other
    nights: the number of people present and what each person is charged
    for such a night are as before. *)
Theorem toggleNight_other_nights (personId : string) (nightIndex : Z)
    (prev : App.AppState) (price : number) (n : Z) (j : nat) :
  Z.of_nat j <> nightIndex ->
  let next := App.toggleNight personId nightIndex prev in
  peopleThisNight (App.people next) j = peopleThisNight (App.people prev) j
  /\ nightColumn (calculateCosts (App.people next) price n) j
     = nightColumn (calculateCosts (App.people prev) price n) j.
Proof.
  intros Hj next. split; [by apply AppFacts.toggleNight_count|].
  rewrite !AppFacts.calculateCosts_map.
  destruct ((n =? 0) || Num.strict_eq price Num.zero); [done|].
  apply (AppFacts.nightColumn_toggled (App.people next) (App.people prev));
    [done|].
  by apply AppFacts.toggleNight_count.
Qed.

Lemma toggleNight_other_nights_witness :
  let prev := {| App.totalPrice := "200"; App.checkInDate := "2024-01-15";
                 App.checkOutDate := "2024-01-17";
                 App.people := [guest "1" [true; true];
                                guest "2" [true; false]] |} in
  let next := App.toggleNight "2" 1 prev in
  App.people next = [guest "1" [true; true]; guest "2" [true; true]] /\
  peopleThisNight (App.people next) 0 = peopleThisNight (App.people prev) 0
  /\ nightColumn (calculateCosts (App.people next) (Num.of_Z 200) 2) 0
     = nightColumn (calculateCosts (App.people prev) (Num.of_Z 200) 2) 0.
Proof.
  intros prev next. split; [reflexivity|].
  apply (toggleNight_other_nights "2" 1 prev (Num.of_Z 200) 2 0). done.
Defined.

(** X10. A toggle leaves the record of a bystander as it was: a person with
    another id who is not there on the night toggled pays the same for every
    night, and the same in total. *)
Theorem toggleNight_bystander (personId : string) (nightIndex : Z)
    (prev : App.AppState) (price : number) (n : Z) (k : nat) (p : Person) :
  App.people prev !! k = Some p ->
  id p <> personId ->
  (forall i : nat, Z.of_nat i = nightIndex -> stayed p i = false) ->
  calculateCosts (App.people (App.toggleNight personId nightIndex prev))
                 price n !! k
  = calculateCosts (App.people prev) price n !! k.
Proof.
  intros Hk Hid Habs.
  rewrite !AppFacts.calculateCosts_map.
  destruct ((n =? 0) || Num.strict_eq price Num.zero); [done|].
  rewrite !list_lookup_fmap.
  assert (App.people (App.toggleNight personId nightIndex prev) !! k = Some p)
    as ->.
  { unfold App.toggleNight. cbn [App.withPeople App.people].
    rewrite list_lookup_fmap, Hk. cbn.
    by destruct (String.eqb_spec (id p) personId). }
  rewrite Hk. cbn. f_equal.
  apply AppFacts.personCost_ext_stayed; [done|done|].
  intros i _ Hi. apply AppFacts.toggleNight_count.
  intros Heq. by rewrite (Habs i Heq) in Hi.
Qed.

Lemma toggleNight_bystander_witness :
  let prev := {| App.totalPrice := "200"; App.checkInDate := "2024-01-15";
                 App.checkOutDate := "2024-01-17";
                 App.people := [guest "1" [true; false];
                                guest "2" [true; false]] |} in
  calculateCosts (App.people (App.toggleNight "2" 1 prev))
                 (Num.of_Z 200) 2 !! 0%nat
  = calculateCosts (App.people prev) (Num.of_Z 200) 2 !! 0%nat.
Proof.
  intros prev.
  apply (toggleNight_bystander "2" 1 prev (Num.of_Z 200) 2 0
           (guest "1" [true; false])).
  - reflexivity.
  - discriminate.
  - intros i Hi. assert (i = 1%nat) as -> by lia. reflexivity.
Defined.

(** X11. What a toggle does to the roster: ids, names and the order stay,
    every array of flags keeps its length, and the flag at [nightIndex] is
    negated for every person with the id, the others keeping theirs. *)
Theorem toggleNight_flags (personId : string) (nightIndex : Z)
    (prev : App.AppState) :
  let next := App.toggleNight personId nightIndex prev in
  map id (App.people next) = map id (App.people prev) /\
  map name (App.people next) = map name (App.people prev) /\
  map (fun p => length (nights p)) (App.people next)
  = map (fun p => length (nights p)) (App.people prev) /\
  forall (k : nat) (p : Person), App.people prev !! k = Some p ->
    exists p' : Person,
      App.people next !! k = Some p' /\
      forall (j : nat) (b : bool), nights p !! j = Some b ->
        nights p' !! j
        = Some (if String.eqb (id p) personId && (Z.of_nat j =? nightIndex)
                then negb b else b).
Proof.
  intros next. subst next. unfold App.toggleNight.
  cbn [App.withPeople App.people].
  split; [|split; [|split]].
  - rewrite map_map. apply map_ext. intros p.
    by destruct (String.eqb (id p) personId).
  - rewrite map_map. apply map_ext. intros p.
    by destruct (String.eqb (id p) personId).
  - rewrite map_map. apply map_ext. intros p.
    destruct (String.eqb (id p) personId); [|done].
    cbn [nights]. apply AppFacts.toggleFlags_length.
  - intros k p Hk. eexists. split; [by rewrite list_lookup_fmap, Hk|].
    intros j b Hb.
    destruct (String.eqb (id p) personId); cbn [nights andb]; [|done].
    by rewrite AppFacts.toggleFlags_lookup, Hb.
Qed.

(** X12. A toggle at an index where the people with the id have no flag, a
    negative one or one past the end of their arrays, changes nothing; nor
    does a toggle for an id that nobody has. *)
Theorem toggleNight_out_of_range (personId : string) (nightIndex : Z)
    (prev : App.AppState) :
  (forall p, p ∈ App.people prev -> id p = personId ->
     nightIndex < 0 \/ Z.of_nat (length (nights p)) <= nightIndex) ->
  App.toggleNight personId nightIndex prev = prev.
Proof.
  destruct prev as [tp ci co ps]. unfold App.toggleNight, App.withPeople.
  cbn [App.people App.totalPrice App.checkInDate App.checkOutDate].
  intros Hout. f_equal. etransitivity; [|apply map_id].
  apply map_ext_in. intros p Hp. apply list_elem_of_In in Hp.
  destruct (String.eqb_spec (id p) personId) as [Heq|Hne]; [|done].
  rewrite AppFacts.toggleFlags_out_of_range by (by apply Hout).
  apply AppFacts.Person_eta.
Qed.

Lemma toggleNight_out_of_range_witness :
  let prev := {| App.totalPrice := "200"; App.checkInDate := "2024-01-15";
                 App.checkOutDate := "2024-01-17";
                 App.people := [guest "1" [true; false];
                                guest "2" [true]] |} in
  App.toggleNight "2" 1 prev = prev.
Proof.
  intros prev. apply (toggleNight_out_of_range "2" 1 prev).
  intros p Hp Hid. cbn in Hp. rewrite !elem_of_cons in Hp.
  destruct Hp as [->|[->|Hp]].
  - discriminate.
  - right. cbn. lia.
  - by apply elem_of_nil in Hp.
Defined.

(** X13. With ids that are all different, a toggle of a night that the
    person has a flag for moves the number of people present that night by
    exactly one: down when the person was there, up otherwise. *)
Theorem toggleNight_headcount (personId : string) (j : nat)
    (prev : App.AppState) (p : Person) (b : bool) :
  NoDup (map id (App.people prev)) ->
  p ∈ App.people prev -> id p = personId -> nights p !! j = Some b ->
  (peopleThisNight
     (App.people (App.toggleNight personId (Z.of_nat j) prev)) j
   + (if b then 1 else 0)
   = peopleThisNight (App.people prev) j + (if b then 0 else 1))%nat.
Proof.
  intros Hnd Hp Hid Hb.
  apply list_elem_of_split in Hp as (l1 & l2 & Hsplit).
  unfold App.toggleNight. cbn [App.withPeople App.people].
  rewrite Hsplit in *. clear Hsplit.
  rewrite map_app in Hnd. cbn [map] in Hnd.
  apply NoDup_app in Hnd as (_ & Hl1 & Hnd).
  apply NoDup_cons in Hnd as [Hl2 _].
  rewrite map_app. cbn [map].
  rewrite AppFacts.toggle_others.
  2:{ intros H. apply (Hl1 _ H). rewrite Hid. apply list_elem_of_here. }
  rewrite AppFacts.toggle_others by (by rewrite <- Hid).
  rewrite Hid, String.eqb_refl.
  rewrite !AppFacts.peopleThisNight_app.
  change (?q :: l2) with ([q] ++ l2).
  rewrite !AppFacts.peopleThisNight_app.
  assert (forall q : Person, peopleThisNight [q] j
                             = if stayed q j then 1%nat else 0%nat) as Hone.
  { intros q. unfold peopleThisNight. destruct (stayed q j) eqn:Hq.
    - by rewrite filter_cons_True by (by rewrite Hq).
    - by rewrite filter_cons_False by (rewrite Hq; simpl; tauto). }
  rewrite !Hone. unfold stayed. cbn [nights].
  rewrite AppFacts.toggleFlags_lookup, Hb. cbn. rewrite Z.eqb_refl.
  destruct b; cbn; lia.
Qed.

Lemma toggleNight_headcount_witness :
  let prev := {| App.totalPrice := "200"; App.checkInDate := "2024-01-15";
                 App.checkOutDate := "2024-01-17";
                 App.people := [guest "1" [true; true];
                                guest "2" [true; false]] |} in
  (peopleThisNight (App.people (App.toggleNight "2" 1 prev)) 1 + 0
   = peopleThisNight (App.people prev) 1 + 1)%nat.
Proof.
  intros prev.
  apply (toggleNight_headcount "2" 1 prev (guest "2" [true; false]) false).
  - cbn. apply NoDup_cons. split.
    + intros H. apply list_elem_of_singleton in H. discriminate.
    + apply NoDup_singleton.
  - cbn. apply list_elem_of_further, list_elem_of_here.
  - reflexivity.
  - reflexivity.
Defined.

(** X14. The record that the page looks up for a person,
    [costs.find((c) => c.personId === person.id)], is the record of the
    first person of the roster with that id; with ids that are all
    different it is the person's own. *)
Theorem findCost_calculateCosts (people : list Person) (price : number)
    (n : Z) (i : string) :
  n <> 0 -> Num.strict_eq price Num.zero = false ->
  let ppn := Num.div price (Num.of_Z n) in
  App.findCost (calculateCosts people price n) i
  = personCost people ppn n
    <$> List.find (fun p => String.eqb (id p) i) people
  /\ (NoDup (map id people) ->
      forall p, p ∈ people -> id p = i ->
        App.findCost (calculateCosts people price n) i
        = Some (personCost people ppn n p)).
Proof.
  intros Hn Hprice ppn.
  assert (App.findCost (calculateCosts people price n) i
          = personCost people ppn n
            <$> List.find (fun p => String.eqb (id p) i) people) as Hfind.
  { rewrite AppFacts.calculateCosts_map.
    replace (n =? 0) with false by lia. rewrite Hprice. cbn [orb].
    apply AppFacts.find_map_personCost. }
  split; [exact Hfind|].
  intros Hnd p Hp <-. rewrite Hfind.
  by rewrite AppFacts.find_unique_id.
Qed.

Lemma findCost_calculateCosts_witness :
  let people := [guest "1" [true; true]; guest "2" [true; false];
                 guest "1" [false; false]] in
  App.findCost (calculateCosts people (Num.of_Z 200) 2) "1"
  = Some {| personId := "1"; perNight := [Num.of_Z 50; Num.of_Z 100];
            total := Num.of_Z 150 |}.
Proof.
  intros people.
  destruct (findCost_calculateCosts people (Num.of_Z 200) 2 "1")
    as [Hfind _]; [done|done|].
  rewrite Hfind. vm_compute. reflexivity.
Defined.

(** X15. The page finds no record for an id exactly when there are no
    costs at all, for no nights or a price of zero, or when nobody of the
    roster has the id. *)
Theorem findCost_none (people : list Person) (price : number) (n : Z)
    (i : string) :
  App.findCost (calculateCosts people price n) i = None
  <-> n = 0 \/ Num.strict_eq price Num.zero = true \/ i ∉ map id people.
Proof.
  unfold App.findCost. rewrite AppFacts.calculateCosts_map.
  destruct (Z.eqb_spec n 0) as [Hn|Hn]; [by split; [left|]|].
  destruct (Num.strict_eq price Num.zero) eqn:Hp; cbn [orb];
    [by split; [right; left|]|].
  rewrite AppFacts.find_map_personCost, fmap_None, AppFacts.find_id_None.
  split; [by right; right|]. by intros [H|[H|H]].
Qed.

(** X16. When nobody stayed any of the nights, every total is zero and the
    button that copies the summary is not shown. *)
Theorem summaryShown_nobody_stayed (people : list Person) (price : number)
    (n : Z) :
  (forall p, p ∈ people -> forall i, (i < Z.to_nat n)%nat ->
     stayed p i = false) ->
  Forall (fun c => total c = Num.zero) (calculateCosts people price n) /\
  App.summaryShown people (calculateCosts people price n) = false.
Proof.
  intros Habs.
  assert (Forall (fun c => total c = Num.zero)
                 (calculateCosts people price n)) as Hzero.
  { rewrite AppFacts.calculateCosts_map.
    destruct ((n =? 0) || Num.strict_eq price Num.zero); [done|].
    apply Forall_fmap, Forall_forall. intros p Hp. cbn.
    rewrite AppFacts.personCost_absent by (by apply Habs). done. }
  split; [exact Hzero|].
  unfold App.summaryShown.
  replace (existsb _ _) with false; [by rewrite andb_false_r|].
  symmetry. induction Hzero as [|c l Hc _ IH]; [done|].
  cbn [existsb]. by rewrite Hc, IH.
Qed.

Lemma summaryShown_nobody_stayed_witness :
  let people := [guest "1" [false; false]; guest "2" []] in
  App.summaryShown people (calculateCosts people (Num.of_Z 200) 2) = false.
Proof.
  intros people.
  apply (summaryShown_nobody_stayed people (Num.of_Z 200) 2).
  intros p Hp i Hi. unfold people in Hp. rewrite !elem_of_cons in Hp.
  destruct Hp as [->|[->|Hp]].
  - by destruct i as [|[|i]].
  - by destruct i.
  - by apply elem_of_nil in Hp.
Defined.

(** X17. Between two dates with four-digit years, on a host whose offset
    from UTC stays below a day, [calculateNights] returns a number and not
    [NaN]: it is never negative, it is at most two below and one above the
    number [D] of days from the first date to the second, and it is at most
    3652425, so that it is always a length an array can have. *)
Theorem calculateNights_range (LocalTZA : Z -> bool -> Z)
    (hostParse : string -> option Z) (y1 m1 d1 y2 m2 d2 : Z) :
  (forall t b, Z.abs (LocalTZA t b) < ES.msPerDay) ->
  ES.validDate y1 m1 d1 -> ES.validDate y2 m2 d2 ->
  let D := ES.dayNumber y2 m2 d2 - ES.dayNumber y1 m1 d1 in
  exists n : Z,
    calculateNights LocalTZA hostParse
                    (ES.isoDate y1 m1 d1) (ES.isoDate y2 m2 d2) = Some n /\
    Z.max 0 (D - 2) <= n <= Z.max 0 (D + 1) /\
    n <= 3652425 /\ n <= App.maxArrayLength.
Proof.
  intros Hsmall Hv1 Hv2 D.
  destruct (AppFacts.calculateNights_dates LocalTZA hostParse
              y1 m1 d1 y2 m2 d2 Hsmall Hv1 Hv2) as (n & Hn & Hb & Hmax).
  exists n. fold D in Hb. unfold App.maxArrayLength. repeat split; try done; lia.
Qed.

Lemma calculateNights_range_witness :
  exists n : Z,
    calculateNights newYork2024 strictParse "2024-03-09" "2024-03-11" = Some n
    /\ Z.max 0 (2 - 2) <= n <= Z.max 0 (2 + 1) /\
    n <= 3652425 /\ n <= App.maxArrayLength.
Proof.
  apply (calculateNights_range newYork2024 strictParse 2024 3 9 2024 3 11).
  - apply newYork2024_small.
  - unfold ES.validDate. simpl. lia.
  - unfold ES.validDate. simpl. lia.
Defined.

(** X18. [calculateNights] returns [NaN], and not [0], exactly when both
    strings are non-empty and one of them does not make a valid date. *)
Theorem calculateNights_NaN (LocalTZA : Z -> bool -> Z)
    (hostParse : string -> option Z) (checkIn checkOut : string) :
  calculateNights LocalTZA hostParse checkIn checkOut = None
  <-> isEmpty checkIn = false /\ isEmpty checkOut = false /\
      (newDate LocalTZA hostParse (checkIn ++ "T00:00:00")%string = None \/
       newDate LocalTZA hostParse (checkOut ++ "T00:00:00")%string = None).
Proof.
  unfold calculateNights.
  destruct (isEmpty checkIn), (isEmpty checkOut); cbn [orb];
    try (split; [done|by intros (? & ? & ?)]).
  destruct (newDate LocalTZA hostParse (checkOut ++ "T00:00:00")%string)
    as [tOut|];
  destruct (newDate LocalTZA hostParse (checkIn ++ "T00:00:00")%string)
    as [tIn|]; cbn [dateLe].
  - destruct (tOut <=? tIn); split; try done; by intros (_ & _ & [|]).
  - split; [|done]. intros _. repeat split. by left.
  - split; [|done]. intros _. repeat split. by right.
  - split; [|done]. intros _. repeat split. by left.
Qed.

(** X19. [getNightDates] throws a [RangeError] when it is asked for one label
    or more from a check-in string that does not make a valid date:
    [toISOString] refuses the invalid date of the first turn. *)
Theorem getNightDates_invalid_checkIn (LocalTZA : Z -> bool -> Z)
    (hostParse : string -> option Z) (checkIn : string) (n : Z) :
  isEmpty checkIn = false -> 0 < n ->
  newDate LocalTZA hostParse (checkIn ++ "T00:00:00")%string = None ->
  getNightDates LocalTZA hostParse checkIn n = RangeError.
Proof.
  intros Hne Hn Hbad. unfold getNightDates. rewrite Hne, Hbad.
  replace (n =? 0) with false by lia. cbn [orb].
  destruct (Z.to_nat n) as [|k] eqn:Hk; [lia|].
  cbn [seq foldl nightLabel mbind completion_bind].
  exact (AppFacts.getNightDates_thrown (fun _ => RangeError) (seq 1 k)).
Qed.

Lemma getNightDates_invalid_checkIn_witness :
  getNightDates utcZone strictParse "tomorrow" 2 = RangeError.
Proof.
  apply (getNightDates_invalid_checkIn utcZone strictParse "tomorrow" 2).
  - reflexivity.
  - lia.
  - vm_compute. reflexivity.
Defined.

(** X20. The page never gets that error from a bad check-in string.  The
    night count it computes is then [0] or [NaN], and [getNightDates], run
    turn by turn on that count, returns the empty array: for [0] by its first
    test, for [NaN] because [nights === 0] fails and so does [0 < nights],
    so that the loop makes no turn and the date is never written out. *)
Theorem nightDates_invalid_checkIn (LocalTZA : Z -> bool -> Z)
    (hostParse : string -> option Z) (s : App.AppState) (fuel : nat) :
  newDate LocalTZA hostParse (App.checkInDate s ++ "T00:00:00")%string = None ->
  (0 < fuel)%nat ->
  nightDatesStepwise LocalTZA hostParse fuel s = Some (Normal []) /\
  (App.nights LocalTZA hostParse s = Some 0 \/
   App.nights LocalTZA hostParse s = None).
Proof.
  intros Hbad Hfuel.
  assert (App.nights LocalTZA hostParse s = Some 0 \/
          App.nights LocalTZA hostParse s = None) as Hcount.
  { unfold App.nights, calculateNights. rewrite Hbad.
    destruct (isEmpty (App.checkInDate s) || isEmpty (App.checkOutDate s));
      [by left|].
    destruct (newDate LocalTZA hostParse
                (App.checkOutDate s ++ "T00:00:00")%string);
      cbn [dateLe]; by right. }
  split; [|exact Hcount].
  unfold nightDatesStepwise, getNightDatesStepwise.
  destruct Hcount as [-> | ->]; cbn [strictEqZero].
  - by rewrite Z.eqb_refl, orb_true_r.
  - rewrite orb_false_r. destruct (isEmpty (App.checkInDate s)); [done|].
    destruct fuel as [|fuel]; [lia|]. reflexivity.
Qed.

Lemma nightDates_invalid_checkIn_witness :
  let s := {| App.totalPrice := "200"; App.checkInDate := "tomorrow";
              App.checkOutDate := "2024-03-02"; App.people := [] |} in
  nightDatesStepwise utcZone strictParse 1 s = Some (Normal []) /\
  (App.nights utcZone strictParse s = Some 0 \/
   App.nights utcZone strictParse s = None).
Proof.
  intros s. apply (nightDates_invalid_checkIn utcZone strictParse s 1).
  - vm_compute. reflexivity.
  - lia.
Defined.

(** X21. In a zone at a constant offset at or behind UTC, with a check-out
    date after the check-in date, the page has one label for each night:
    the dates from the check-in date to the day before the check-out date,
    in order. *)
Theorem nightDates_fixed_zone (c : Z) (hostParse : string -> option Z)
    (s : App.AppState) (y1 m1 d1 y2 m2 d2 : Z) :
  - ES.msPerDay < c <= 0 ->
  ES.validDate y1 m1 d1 -> ES.validDate y2 m2 d2 ->
  ES.dateLt y1 m1 d1 y2 m2 d2 ->
  App.checkInDate s = ES.isoDate y1 m1 d1 ->
  App.checkOutDate s = ES.isoDate y2 m2 d2 ->
  let n := ES.dayNumber y2 m2 d2 - ES.dayNumber y1 m1 d1 in
  App.nights (fixedZone c) hostParse s = Some n /\
  exists labels : list string,
    App.nightDates (fixedZone c) hostParse s = Normal labels /\
    Z.of_nat (length labels) = n /\
    labels !! 0%nat = Some (ES.isoDate y1 m1 d1) /\
    forall i : nat, (i < Z.to_nat n)%nat ->
      labels !! i
      = Some (ES.isoDateOfDay (ES.dayNumber y1 m1 d1 + Z.of_nat i)).
Proof.
  intros Hc Hv1 Hv2 Hlt Hci Hco n.
  destruct (calculateNights_fixed_zone c hostParse y1 m1 d1 y2 m2 d2)
    as [Hn Hpos]; [unfold ES.msPerDay in *; lia|done|done|done|].
  fold n in Hn, Hpos.
  assert (App.nights (fixedZone c) hostParse s = Some n) as Hnights.
  { unfold App.nights. by rewrite Hci, Hco. }
  split; [exact Hnights|].
  destruct (getNightDates_west_of_utc c hostParse y1 m1 d1 n)
    as [Hlabels Hfirst]; [done|done| |].
  { pose proof (DateFacts.dayNumber_range y2 m2 d2 Hv2). subst n. lia. }
  eexists. split; [|split; [|split]].
  - unfold App.nightDates. rewrite Hnights, Hci. exact Hlabels.
  - rewrite length_map, length_seq. lia.
  - rewrite list_lookup_fmap, lookup_seq_lt by lia. cbn.
    by rewrite Z.add_0_r, Hfirst.
  - intros i Hi. by rewrite list_lookup_fmap, lookup_seq_lt.
Qed.

Lemma nightDates_fixed_zone_witness :
  let s := {| App.totalPrice := "300"; App.checkInDate := "2024-02-28";
              App.checkOutDate := "2024-03-02"; App.people := [] |} in
  App.nights (fixedZone (-8 * ES.msPerHour)) strictParse s = Some 3 /\
  App.nightDates (fixedZone (-8 * ES.msPerHour)) strictParse s
  = Normal ["2024-02-28"; "2024-02-29"; "2024-03-01"]%string.
Proof.
  intros s.
  destruct (nightDates_fixed_zone (-8 * ES.msPerHour) strictParse s
              2024 2 28 2024 3 2) as (Hn & labels & Hl & _);
    [vm_compute; split; [reflexivity|discriminate]
    |unfold ES.validDate; simpl; lia
    |unfold ES.validDate; simpl; lia
    |unfold ES.dateLt; lia
    |reflexivity|reflexivity|].
  split; [exact Hn|].
  rewrite Hl. vm_compute in Hl. by injection Hl as <-.
Defined.

(** X22. With the night count that the page computes, neither the effect
    that resizes the flags nor [addPerson] throws, whenever each of the two
    date strings is empty, makes no valid date, or is a date with a
    four-digit year: no array is asked for with a negative length or one too
    large. *)
Theorem roster_updates_never_throw (LocalTZA : Z -> bool -> Z)
    (hostParse : string -> option Z) (s prev : App.AppState) (now : string) :
  (forall t b, Z.abs (LocalTZA t b) < ES.msPerDay) ->
  (forall str : string,
     str = App.checkInDate s \/ str = App.checkOutDate s ->
     str = ""%string \/
     newDate LocalTZA hostParse (str ++ "T00:00:00")%string = None \/
     exists y m d : Z, ES.validDate y m d /\ str = ES.isoDate y m d) ->
  let count := App.nights LocalTZA hostParse s in
  (exists next, App.resizeNights count prev = Normal next) /\
  (exists next, App.addPerson now count prev = Normal next).
Proof.
  intros Hsmall Hdates count.
  assert (0 <= App.orZero count <= App.maxArrayLength) as Hb.
  { subst count. unfold App.nights.
    destruct (Hdates (App.checkInDate s) (or_introl eq_refl))
      as [Hin|[Hin|(y1 & m1 & d1 & Hv1 & Hin)]];
    destruct (Hdates (App.checkOutDate s) (or_intror eq_refl))
      as [Hout|[Hout|(y2 & m2 & d2 & Hv2 & Hout)]].
    all: try (unfold calculateNights; rewrite ?Hin, ?Hout;
              cbn [isEmpty orb]; rewrite ?orb_true_r;
              cbn [App.orZero]; unfold App.maxArrayLength; lia).
    all: try (unfold calculateNights;
              destruct (isEmpty (App.checkInDate s)
                        || isEmpty (App.checkOutDate s));
              [cbn [App.orZero]; unfold App.maxArrayLength; lia|];
              rewrite ?Hin, ?Hout;
              repeat match goal with
                     | |- context [newDate ?a ?b ?c] => destruct (newDate a b c)
                     end;
              cbn [dateLe App.orZero]; unfold App.maxArrayLength; lia).
    rewrite Hin, Hout.
    destruct (AppFacts.calculateNights_dates LocalTZA hostParse
                y1 m1 d1 y2 m2 d2 Hsmall Hv1 Hv2) as (n & -> & Hn & Hmax).
    cbn [App.orZero]. unfold App.maxArrayLength. lia. }
  split.
  - eexists. apply AppFacts.resizeNights_Normal. lia.
  - unfold App.addPerson. rewrite AppFacts.newFlags_Normal by done.
    eexists. reflexivity.
Qed.

Lemma roster_updates_never_throw_witness :
  let s := {| App.totalPrice := "300"; App.checkInDate := "2024-03-09";
              App.checkOutDate := "2024-03-11";
              App.people := [guest "1" [true]] |} in
  let count := App.nights newYork2024 strictParse s in
  count = Some 1 /\
  (exists next, App.resizeNights count s = Normal next) /\
  (exists next, App.addPerson "2" count s = Normal next).
Proof.
  intros s count. split; [vm_compute; reflexivity|].
  apply (roster_updates_never_throw newYork2024 strictParse s s "2").
  - apply newYork2024_small.
  - intros str [-> | ->]; right; right.
    + exists 2024, 3, 9. split; [|reflexivity].
      unfold ES.validDate. simpl. lia.
    + exists 2024, 3, 11. split; [|reflexivity].
      unfold ES.validDate. simpl. lia.
Defined.
